(** * The Kanban board model of [src/apps/KanbanApplication.jsx]

    A shallow embedding of the classes [KanbanModelItem], [KanbanModelList]
    and [KanbanModel], of the JavaScript string, array and regular
    expression operations they call, and the properties of the board model:
    parsing, printing, equality and moving items. *)

From Stdlib Require Import String Ascii.
From Stdlib Require Import List Bool Arith NArith ZArith Lia Permutation.
Import ListNotations.

Set Implicit Arguments.

(** ** JavaScript strings

    A JavaScript string is a sequence of UTF-16 code units. *)

Definition code := N.
Definition str := list code.

(** A string literal of the source, read as code units. *)
Definition lit (s : string) : str := List.map N_of_ascii (list_ascii_of_string s).

Definition code_eqb (a b : code) : bool := N.eqb a b.

Fixpoint str_eqb (a b : str) : bool :=
  match a, b with
  | [], [] => true
  | x :: a', y :: b' => code_eqb x y && str_eqb a' b'
  | _, _ => false
  end.

Definition LF : code := 10%N.

(** [s.split('\n')]: the fields between the separators; never empty. *)
Fixpoint split (sep : code) (s : str) : list str :=
  match s with
  | [] => [[]]
  | c :: s' =>
      if code_eqb c sep then [] :: split sep s'
      else match split sep s' with
           | h :: t => (c :: h) :: t
           | [] => [[c]]
           end
  end.

(** [a.join(sep)] on an array of strings. *)
Fixpoint join (sep : str) (l : list str) : str :=
  match l with
  | [] => []
  | [x] => x
  | x :: l' => x ++ sep ++ join sep l'
  end.

(** ** JavaScript arrays

    An array of typed values is a list.  Indices are JavaScript numbers;
    the integral ones are modelled, as [Z]. *)

Section Arrays.
Variable A : Type.

(** [a[i]]: [None] stands for [undefined]. *)
Definition array_get (i : Z) (a : list A) : option A :=
  if (i <? 0)%Z then None else nth_error a (Z.to_nat i).

(** The actual start of [a.splice(start, ...)]: a negative [start] counts
    from the end, and the result is clamped to [0 .. length]. *)
Definition splice_start (len : nat) (start : Z) : nat :=
  if (start <? 0)%Z then Z.to_nat (Z.max (Z.of_nat len + start) 0)
  else Nat.min (Z.to_nat start) len.

(** [a.splice(start, 1)] *)
Definition splice_delete1 (start : Z) (a : list A) : list A :=
  let k := splice_start (length a) start in
  firstn k a ++ skipn (S k) a.

(** [a.splice(start, 0, x)] *)
Definition splice_insert (start : Z) (x : A) (a : list A) : list A :=
  let k := splice_start (length a) start in
  firstn k a ++ x :: skipn k a.

(** [a.push(x)] *)
Definition push (x : A) (a : list A) : list A := a ++ [x].

(** In-place mutation of the object stored at index [i]. *)
Fixpoint update_at (i : nat) (f : A -> A) (a : list A) : list A :=
  match a, i with
  | [], _ => []
  | x :: a', O => f x :: a'
  | x :: a', S i' => x :: update_at i' f a'
  end.
End Arrays.

(** ** Regular expressions

    The fragment of ECMAScript regular expressions that the source uses:
    the assertions [^] and [$] (no [m] flag), one-character classes, the
    quantifiers [*], [+] and [*?] on a class, capture groups and
    concatenation.  The matcher is the backtracking matcher of the language
    definition: a matcher takes a state and a continuation. *)

Inductive regex : Type :=
| AssertStart                              (* ^ *)
| AssertEnd                                (* $ *)
| CharClass (p : code -> bool)             (* [...] \s . *)
| Star (p : code -> bool)                  (* C*  *)
| Plus (p : code -> bool)                  (* C+  *)
| StarLazy (p : code -> bool)              (* C*? *)
| Group (n : nat) (r : regex)              (* ( r ), the n-th group *)
| Seq (r1 r2 : regex).

(** The rest of the input after the current position, and the captures. *)
Record mstate : Type := MState { rest : str; caps : list (nat * str) }.

Definition cont := mstate -> option mstate.

Fixpoint repeat_greedy (p : code -> bool) (s : str) (cs : list (nat * str)) (k : cont)
  : option mstate :=
  match s with
  | c :: s' =>
      if p c then
        match repeat_greedy p s' cs k with
        | Some y => Some y
        | None => k (MState s cs)
        end
      else k (MState s cs)
  | [] => k (MState s cs)
  end.

Fixpoint repeat_lazy (p : code -> bool) (s : str) (cs : list (nat * str)) (k : cont)
  {struct s} : option mstate :=
  match k (MState s cs) with
  | Some y => Some y
  | None =>
      match s with
      | c :: s' => if p c then repeat_lazy p s' cs k else None
      | [] => None
      end
  end.

Section Matcher.
(** The whole input, against which [^] is checked. *)
Variable input : str.

Fixpoint matcher (r : regex) (x : mstate) (k : cont) : option mstate :=
  match r with
  | AssertStart =>
      if Nat.eqb (length (rest x)) (length input) then k x else None
  | AssertEnd =>
      match rest x with
      | [] => k x
      | _ :: _ => None
      end
  | CharClass p =>
      match rest x with
      | c :: s' => if p c then k (MState s' (caps x)) else None
      | [] => None
      end
  | Star p => repeat_greedy p (rest x) (caps x) k
  | Plus p =>
      match rest x with
      | c :: s' => if p c then repeat_greedy p s' (caps x) k else None
      | [] => None
      end
  | StarLazy p => repeat_lazy p (rest x) (caps x) k
  | Group n r' =>
      matcher r' x (fun y =>
        k (MState (rest y)
             ((n, firstn (length (rest x) - length (rest y)) (rest x)) :: caps y)))
  | Seq r1 r2 => matcher r1 x (fun y => matcher r2 y k)
  end.

(** The search loop of [exec]: the match is tried at every start index,
    from the left. *)
Fixpoint scan (r : regex) (s : str) : option mstate :=
  match matcher r (MState s []) (fun y => Some y) with
  | Some y => Some y
  | None =>
      match s with
      | _ :: s' => scan r s'
      | [] => None
      end
  end.
End Matcher.

(** [s.match(r)] for a regular expression without the [g] flag: [None] is
    [null]. *)
Definition exec (r : regex) (s : str) : option mstate := scan s r s.

Fixpoint assoc (n : nat) (cs : list (nat * str)) : option str :=
  match cs with
  | [] => None
  | (m, s) :: cs' => if Nat.eqb n m then Some s else assoc n cs'
  end.

(** [m[n]] of a match result.  The fragment has no alternative and no
    quantified group, so every group of a successful match took part in it
    and its capture is a string; an absent entry reads as the empty string. *)
Definition group (n : nat) (m : mstate) : str :=
  match assoc n (caps m) with
  | Some s => s
  | None => []
  end.

(** *** Character classes *)

Definition is_LineTerminator (c : code) : bool :=
  (N.eqb c 10 || N.eqb c 13 || N.eqb c 8232 || N.eqb c 8233)%N.

Definition is_WhiteSpace (c : code) : bool :=
  (N.eqb c 9 || N.eqb c 11 || N.eqb c 12 || N.eqb c 32 || N.eqb c 160
   || N.eqb c 5760 || (N.leb 8192 c && N.leb c 8202)
   || N.eqb c 8239 || N.eqb c 8287 || N.eqb c 12288 || N.eqb c 65279)%N.

(** [\s] *)
Definition cls_space (c : code) : bool := is_WhiteSpace c || is_LineTerminator c.

(** [.] *)
Definition cls_dot (c : code) : bool := negb (is_LineTerminator c).

(** [[*-]] *)
Definition cls_bullet (c : code) : bool := (N.eqb c 42 || N.eqb c 45)%N.

(** [[*_]] *)
Definition cls_marker (c : code) : bool := (N.eqb c 42 || N.eqb c 95)%N.

(** [reList], token by token: [^ [*-] \s* ( .* ) $] *)
Definition reList : regex :=
  Seq AssertStart (Seq (CharClass cls_bullet) (Seq (Star cls_space)
    (Seq (Group 1 (Star cls_dot)) AssertEnd))).

(** [reItem], token by token: [^ \s+ [*-] \s* ( .* ) $] *)
Definition reItem : regex :=
  Seq AssertStart (Seq (Plus cls_space) (Seq (CharClass cls_bullet) (Seq (Star cls_space)
    (Seq (Group 1 (Star cls_dot)) AssertEnd)))).

(** [reText], token by token: [^ ( [*_]* ) ( .*? ) ( [*_]* ) $] *)
Definition reText : regex :=
  Seq AssertStart (Seq (Group 1 (Star cls_marker)) (Seq (Group 2 (StarLazy cls_dot))
    (Seq (Group 3 (Star cls_marker)) AssertEnd))).

(** ** The model classes *)

(** How a method call ends.  [Normal a]: it returns and leaves the object
    [a].  [TypeError a]: it throws (a method is called on [undefined]) and
    leaves [a].  [Untyped]: it returns, but has stored [undefined] where an
    item or a list belongs, so that the object has no value in the typed
    model. *)
Inductive completion (A : Type) : Type :=
| Normal (a : A)
| TypeError (a : A)
| Untyped.
Arguments Untyped {A}.

Module KanbanModelItem.
Record t : Type := new { name : str; importance : nat }.

Definition toMarkdown (this : t) : str :=
  let emphasis := repeat 42%N (importance this) in
  emphasis ++ name this ++ emphasis.

Definition clone (this : t) : t := new (name this) (importance this).
End KanbanModelItem.

Module KanbanModelList.
Record t : Type := make { name : str; items : list KanbanModelItem.t }.

Definition new (name : str) : t := make name [].

Definition addItem (text : str) (importance : nat) (this : t) : t :=
  make (name this) (push (KanbanModelItem.new text importance) (items this)).

Definition insertItem (index : Z) (item : KanbanModelItem.t) (this : t) : t :=
  make (name this) (splice_insert index item (items this)).

Definition getLength (this : t) : nat := length (items this).

Definition getItemAt (index : Z) (this : t) : option KanbanModelItem.t :=
  array_get index (items this).

Definition removeItemAt (index : Z) (this : t) : t :=
  make (name this) (splice_delete1 index (items this)).

Definition toMarkdown (this : t) : str :=
  join [LF]
    ((lit "* " ++ name this)
     :: map (fun i => lit "  * " ++ KanbanModelItem.toMarkdown i) (items this)).

Definition clone (this : t) : t :=
  make (name this) (map KanbanModelItem.clone (items this)).
End KanbanModelList.

Module KanbanModel.
Record t : Type := make { lists : list KanbanModelList.t }.

Definition new : t := make [].

Definition addList (s : str) (this : t) : t :=
  make (push (KanbanModelList.new s) (lists this)).

Definition getLength (this : t) : nat := length (lists this).

Definition getListAt (index : Z) (this : t) : option KanbanModelList.t :=
  array_get index (lists this).

Definition removeListAt (index : Z) (this : t) : t :=
  make (splice_delete1 index (lists this)).

Definition insertList (index : Z) (list : KanbanModelList.t) (this : t) : t :=
  make (splice_insert index list (lists this)).

(** The list objects are mutated in place: the removal is visible when the
    destination list is fetched, also when it is the source list. *)
Definition moveItem (fromListIndex fromItemIndex toListIndex toItemIndex : Z)
    (this : t) : completion t :=
  match getListAt fromListIndex this with
  | None => TypeError this
  | Some fromList =>
      let item := KanbanModelList.getItemAt fromItemIndex fromList in
      let this1 :=
        make (update_at (Z.to_nat fromListIndex)
                (KanbanModelList.removeItemAt fromItemIndex) (lists this)) in
      match getListAt toListIndex this1 with
      | None => TypeError this1
      | Some _ =>
          match item with
          | Some it =>
              Normal (make (update_at (Z.to_nat toListIndex)
                              (KanbanModelList.insertItem toItemIndex it) (lists this1)))
          | None => Untyped
          end
      end
  end.

(** With no list at [fromListIndex], [undefined] is inserted as a list. *)
Definition moveList (fromListIndex toListIndex : Z) (this : t) : completion t :=
  match getListAt fromListIndex this with
  | Some fromList => Normal (insertList toListIndex fromList (removeListAt fromListIndex this))
  | None => Untyped
  end.

(** [isEqual] of lodash, on the objects of these classes: two arrays are
    equal when they have the same length and equal elements index by
    index, two objects when their fields are equal. *)
Fixpoint equalArrays (A : Type) (eq : A -> A -> bool) (a b : list A) : bool :=
  match a, b with
  | [], [] => true
  | x :: a', y :: b' => eq x y && equalArrays eq a' b'
  | _, _ => false
  end.

Definition equalItems (a b : KanbanModelItem.t) : bool :=
  str_eqb (KanbanModelItem.name a) (KanbanModelItem.name b)
  && Nat.eqb (KanbanModelItem.importance a) (KanbanModelItem.importance b).

Definition equalLists (a b : KanbanModelList.t) : bool :=
  str_eqb (KanbanModelList.name a) (KanbanModelList.name b)
  && equalArrays equalItems (KanbanModelList.items a) (KanbanModelList.items b).

Definition equals (this other : t) : bool :=
  equalArrays equalLists (lists this) (lists other).

Definition clone (this : t) : t := make (map KanbanModelList.clone (lists this)).

Definition serialize (this : t) : str :=
  join [LF] (map KanbanModelList.toMarkdown (lists this)).

(** [matchText[n] ? matchText[n].length : 0] *)
Definition emphasis_length (n : nat) (matchText : mstate) : nat :=
  match group n matchText with
  | [] => 0
  | _ :: _ => length (group n matchText)
  end.

(** The body of the [forEach] callback; [None] is a thrown exception. *)
Definition forEach_line (model : t) (l : str) : option t :=
  match exec reList l with
  | Some matchList => Some (addList (group 1 matchList) model)
  | None =>
      match exec reItem l with
      | Some matchItem =>
          let listLength := getLength model in
          if Nat.eqb listLength 0 then Some model
          else
            match exec reText (group 1 matchItem) with
            | None => None
            | Some matchText =>
                let empLeft := emphasis_length 1 matchText in
                let empRight := emphasis_length 3 matchText in
                let importance := Nat.min 3 (Nat.min empLeft empRight) in
                Some (make (update_at (listLength - 1)
                              (KanbanModelList.addItem (group 2 matchText) importance)
                              (lists model)))
            end
      | None => Some model
      end
  end.

Fixpoint forEach (lines : list str) (model : t) : option t :=
  match lines with
  | [] => Some model
  | l :: lines' =>
      match forEach_line model l with
      | Some model' => forEach lines' model'
      | None => None
      end
  end.

(** The argument of [deserialize]: a string, or [undefined], on which
    [str.split] throws. *)
Inductive argument : Type :=
| Undefined
| Str (s : str).

(** The [try] block; [None] is a thrown exception. *)
Definition deserialize_try (a : argument) : option t :=
  match a with
  | Undefined => None
  | Str s => forEach (split LF s) new
  end.

Definition deserialize (a : argument) : t :=
  match deserialize_try a with
  | Some model => model
  | None => new
  end.
End KanbanModel.

Import KanbanModel.

(** ** What the three regular expressions compute

    Direct descriptions of the matches, proved equal to the backtracking
    matcher below. *)

Section Runs.
Variable A : Type.
Variable p : A -> bool.

Fixpoint takeWhile (s : list A) : list A :=
  match s with
  | c :: s' => if p c then c :: takeWhile s' else []
  | [] => []
  end.

Fixpoint dropWhile (s : list A) : list A :=
  match s with
  | c :: s' => if p c then dropWhile s' else s
  | [] => []
  end.

(** The longest suffix whose elements all satisfy [p], and what is before it. *)
Fixpoint trailing (s : list A) : list A :=
  if forallb p s then s
  else match s with
       | _ :: s' => trailing s'
       | [] => []
       end.

Fixpoint before_trailing (s : list A) : list A :=
  if forallb p s then []
  else match s with
       | c :: s' => c :: before_trailing s'
       | [] => []
       end.
End Runs.

(** The capture of [reList] on a line, when it matches. *)
Definition list_line (l : str) : option str :=
  match l with
  | c :: r =>
      if cls_bullet c then
        let body := dropWhile cls_space r in
        if forallb cls_dot body then Some body else None
      else None
  | [] => None
  end.

(** The capture of [reItem] on a line, when it matches. *)
Definition item_line (l : str) : option str :=
  match l with
  | c :: r => if cls_space c then list_line (dropWhile cls_space r) else None
  | [] => None
  end.

(** The three captures of [reText]. *)
Definition text_left (t : str) : str := takeWhile cls_marker t.
Definition text_middle (t : str) : str := before_trailing cls_marker (dropWhile cls_marker t).
Definition text_right (t : str) : str := trailing cls_marker (dropWhile cls_marker t).

(** The whole callback in terms of these captures. *)
Definition parse_line (model : t) (l : str) : t :=
  match list_line l with
  | Some n => addList n model
  | None =>
      match item_line l with
      | Some text =>
          if Nat.eqb (getLength model) 0 then model
          else
            make (update_at (getLength model - 1)
                    (KanbanModelList.addItem (text_middle text)
                       (Nat.min 3 (Nat.min (length (text_left text))
                                           (length (text_right text)))))
                    (lists model))
      | None => model
      end
  end.

Definition starts_with (p : code -> bool) (s : str) : bool :=
  match s with
  | c :: _ => p c
  | [] => false
  end.

Fixpoint ends_with (p : code -> bool) (s : str) : bool :=
  match s with
  | [] => false
  | [c] => p c
  | _ :: s' => ends_with p s'
  end.

(** ** Reference descriptions of the operations *)

Section Positions.
Variable A : Type.

(** A sequence without its element at position [i]. *)
Definition remove_nth (i : nat) (l : list A) : list A := firstn i l ++ skipn (S i) l.

(** A sequence with [x] put in at position [i], the later elements moved right. *)
Definition insert_nth (i : nat) (x : A) (l : list A) : list A := firstn i l ++ x :: skipn i l.

(** A sequence with the element at position [i] replaced by [x]. *)
Definition replace_nth (i : nat) (x : A) (l : list A) : list A :=
  update_at i (fun _ => x) l.
End Positions.

(** All the items of a board, list after list. *)
Definition all_items (b : t) : list KanbanModelItem.t :=
  flat_map KanbanModelList.items (lists b).

(** The lines of the markdown form: a list is the line [* name] followed by
    one line [  * item] for each of its items, an item is its name between
    [importance] stars on each side. *)
Definition item_markdown (i : KanbanModelItem.t) : str :=
  repeat 42%N (KanbanModelItem.importance i)
  ++ KanbanModelItem.name i
  ++ repeat 42%N (KanbanModelItem.importance i).

Definition list_block (l : KanbanModelList.t) : list str :=
  (lit "* " ++ KanbanModelList.name l)
  :: map (fun i => lit "  * " ++ item_markdown i) (KanbanModelList.items l).

Definition board_lines (b : t) : list str := flat_map list_block (lists b).

(** The printed text written out from its description, character by
    character: a list is [* name], then for each item a newline and
    [  * item]; a board is the text of its first list, then for each further
    list a newline and the text of that list. *)
Definition spec_block_text (l : KanbanModelList.t) : str :=
  lit "* " ++ KanbanModelList.name l
  ++ concat (map (fun i => LF :: lit "  * " ++ item_markdown i) (KanbanModelList.items l)).

Definition spec_board_text (b : t) : str :=
  match lists b with
  | [] => []
  | l :: ls => spec_block_text l ++ concat (map (fun l' => LF :: spec_block_text l') ls)
  end.

(** No name of the board holds a newline. *)
Definition single_line_names (b : t) : Prop :=
  forall l,
    In l (lists b) ->
    ~ In LF (KanbanModelList.name l)
    /\ forall i, In i (KanbanModelList.items l) -> ~ In LF (KanbanModelItem.name i).

(** What holds of the items and lists that [deserialize] builds. *)
Definition parsed_item (i : KanbanModelItem.t) : Prop :=
  forallb cls_dot (KanbanModelItem.name i) = true
  /\ starts_with cls_marker (KanbanModelItem.name i) = false
  /\ ends_with cls_marker (KanbanModelItem.name i) = false
  /\ KanbanModelItem.importance i <= 3
  /\ (KanbanModelItem.importance i <> 0 -> KanbanModelItem.name i <> []).

Definition parsed_list (l : KanbanModelList.t) : Prop :=
  forallb cls_dot (KanbanModelList.name l) = true
  /\ starts_with cls_space (KanbanModelList.name l) = false
  /\ Forall parsed_item (KanbanModelList.items l).

(** An item whose printed form, without markers, would start with white space. *)
Definition bare_space_item (i : KanbanModelItem.t) : bool :=
  Nat.eqb (KanbanModelItem.importance i) 0 && starts_with cls_space (KanbanModelItem.name i).

(** The item and the list that come back when a printed item or list is
    parsed again. *)
Definition reparse_item (i : KanbanModelItem.t) : KanbanModelItem.t :=
  let text := dropWhile cls_space (item_markdown i) in
  KanbanModelItem.new (text_middle text)
    (Nat.min 3 (Nat.min (length (text_left text)) (length (text_right text)))).

Definition reparse_list (l : KanbanModelList.t) : KanbanModelList.t :=
  KanbanModelList.make (KanbanModelList.name l) (map reparse_item (KanbanModelList.items l)).

(** No item of the board prints with white space at its start. *)
Definition no_bare_space (b : t) : Prop :=
  forall l i, In l (lists b) -> In i (KanbanModelList.items l) -> bare_space_item i = false.

(** [r.test(s)] *)
Definition regex_test (r : regex) (s : str) : bool :=
  match exec r s with
  | Some _ => true
  | None => false
  end.

(** A board that prints one line for each list and each item and whose list
    lines are read back with their names: no name holds a line terminator
    and no list name starts with white space. *)
Definition printable_item (i : KanbanModelItem.t) : Prop :=
  forallb cls_dot (KanbanModelItem.name i) = true.

Definition printable_list (l : KanbanModelList.t) : Prop :=
  forallb cls_dot (KanbanModelList.name l) = true
  /\ starts_with cls_space (KanbanModelList.name l) = false
  /\ Forall printable_item (KanbanModelList.items l).

(** ** The component [KanbanApplication]

    The handlers work on the text [data] of the host: each one parses it,
    changes the board and hands the printed board to [onEdit]. *)

(** What a handler does: it returns without calling [onEdit], it calls
    [onEdit] with a new text, or an exception leaves it before [onEdit] is
    called. *)
Inductive edit : Type :=
| NoEdit
| OnEdit (newData : str)
| Throws.

(** [serialize] calls [toMarkdown] on every list and every item, so it throws
    on a board that holds [undefined]. *)
Definition updateKanban (updator : t -> completion t) (data : str) : edit :=
  match updator (deserialize (Str data)) with
  | Normal newKanban => OnEdit (serialize newKanban)
  | TypeError _ => Throws
  | Untyped => Throws
  end.

(** [textbox] is the value of the text box of the list, if there is one. *)
Definition handleAddItem (index : Z) (textbox : option str) (data : str) : edit :=
  match textbox with
  | None => NoEdit
  | Some [] => NoEdit
  | Some text =>
      updateKanban
        (fun k =>
           match getListAt index k with
           | Some _ =>
               Normal (make (update_at (Z.to_nat index)
                               (KanbanModelList.addItem text 0) (lists k)))
           | None => TypeError k
           end)
        data
  end.

Definition handleAddList (text : str) (data : str) : edit :=
  match text with
  | [] => NoEdit
  | _ :: _ => updateKanban (fun k => Normal (addList text k)) data
  end.

Definition handleRemoveList (listIndex : Z) (data : str) : edit :=
  updateKanban (fun k => Normal (removeListAt listIndex k)) data.

(** An item id is the pair of a list index and an item index. *)
Definition handleRemoveItem (itemId : Z * Z) (data : str) : edit :=
  updateKanban
    (fun k =>
       match getListAt (fst itemId) k with
       | Some _ =>
           Normal (make (update_at (Z.to_nat (fst itemId))
                           (KanbanModelList.removeItemAt (snd itemId)) (lists k)))
       | None => TypeError k
       end)
    data.

Definition handleMoveItem (sourceId targetId : Z * Z) (data : str) : edit :=
  if (snd targetId <? 0)%Z then
    match getListAt (fst targetId) (deserialize (Str data)) with
    | None => Throws
    | Some l =>
        updateKanban
          (moveItem (fst sourceId) (snd sourceId) (fst targetId)
             (Z.of_nat (KanbanModelList.getLength l)))
          data
    end
  else
    updateKanban (moveItem (fst sourceId) (snd sourceId) (fst targetId) (snd targetId)) data.

Definition handleMoveList (sourceId targetId : Z) (data : str) : edit :=
  updateKanban (moveList sourceId targetId) data.

Definition shouldComponentUpdate (data nextData : str) : bool :=
  if str_eqb data nextData then false
  else negb (equals (deserialize (Str data)) (deserialize (Str nextData))).

(** [drop] of [cardTarget]: a card dropped on the card [hoverItemId]. *)
Definition cardTarget_drop (dragItemId hoverItemId : Z * Z) (data : str) : edit :=
  if (Z.eqb (fst dragItemId) (fst hoverItemId) && Z.eqb (snd dragItemId) (snd hoverItemId))%bool
  then NoEdit
  else handleMoveItem dragItemId hoverItemId data.

(** [drop] of [listCardTarget]: a card dropped on the list [hoverListIndex];
    nothing is done when a card of the list has taken the drop. *)
Definition listCardTarget_drop (hasDroppedOnChild : bool) (dragItemId : Z * Z)
    (hoverListIndex : Z) (data : str) : edit :=
  if hasDroppedOnChild then NoEdit
  else handleMoveItem dragItemId (hoverListIndex, (-1)%Z) data.

(** *** [renderKanbanCardText] *)

(** [regexLink], token by token: [\[ ( [^\]]+ ) \] \( ( [^)]+ ) \)], with
    the [g] flag. *)
Definition regexLink : regex :=
  Seq (CharClass (N.eqb 91))
    (Seq (Group 1 (Plus (fun c => negb (N.eqb c 93))))
       (Seq (CharClass (N.eqb 93))
          (Seq (CharClass (N.eqb 40))
             (Seq (Group 2 (Plus (fun c => negb (N.eqb c 41))))
                (CharClass (N.eqb 41)))))).

(** [exec] of an expression with the [g] flag, from [lastIndex] on: [s] is
    the input from [lastIndex]; the result is the input between [lastIndex]
    and the index of the match, and the match, whose [rest] is the input from
    the new [lastIndex]. *)
Fixpoint exec_global (input : str) (r : regex) (s : str) : option (str * mstate) :=
  match matcher input r (MState s []) (fun y => Some y) with
  | Some y => Some ([], y)
  | None =>
      match s with
      | c :: s' =>
          match exec_global input r s' with
          | Some (skipped, y) => Some (c :: skipped, y)
          | None => None
          end
      | [] => None
      end
  end.

(** The children that are rendered: a piece of text or a link [<a>]. *)
Inductive child : Type :=
| Text (s : str)
| Anchor (href : str) (text : str).

(** [text.substring(from, to)] pushed when [from < to]. *)
Definition push_text (s : str) : list child :=
  match s with
  | [] => []
  | _ :: _ => [Text s]
  end.

(** The [for] loop, with [s] the text from [lastLinkIndex]; [fuel] bounds
    the number of matches. *)
Fixpoint render_loop (fuel : nat) (text s : str) : list child :=
  match fuel with
  | O => push_text s
  | S fuel' =>
      match exec_global text regexLink s with
      | Some (skipped, matchLink) =>
          push_text skipped
          ++ Anchor (group 2 matchLink) (group 1 matchLink)
          :: render_loop fuel' text (rest matchLink)
      | None => push_text s
      end
  end.

Definition renderKanbanCardText (text : str) : list child :=
  render_loop (length text) text text.

(** The text that a child stands for. *)
Definition child_source (c : child) : str :=
  match c with
  | Text s => s
  | Anchor href text => 91%N :: text ++ 93%N :: 40%N :: href ++ [41%N]
  end.

(** ** The component [ReversiApplication]

    The values of the cells come from the Reversi model, which is not part
    of these sources: the type of the cell values and their comparison [===]
    are parameters. *)

Section Reversi.
Variable stone : Type.
Variable stone_eqb : stone -> stone -> bool.

Definition countStones (cells : list (list stone)) (stoneValue : stone) : nat :=
  fold_left
    (fun count r =>
       fold_left (fun count c => if stone_eqb c stoneValue then count + 1 else count) r count)
    cells 0.
End Reversi.

(** ** Lemmas on lists and strings *)

Section RunFacts.
Variable A : Type.
Variable p : A -> bool.

Lemma takeWhile_dropWhile (s : list A) : takeWhile p s ++ dropWhile p s = s.
Proof.
  induction s as [|c s IH]; simpl; [reflexivity|].
  destruct (p c); simpl; [now rewrite IH | reflexivity].
Qed.

Lemma takeWhile_all (s : list A) : forallb p (takeWhile p s) = true.
Proof.
  induction s as [|c s IH]; simpl; [reflexivity|].
  destruct (p c) eqn:E; simpl; [now rewrite E | reflexivity].
Qed.

Lemma dropWhile_head (s : list A) c s' : dropWhile p s = c :: s' -> p c = false.
Proof.
  induction s as [|d s IH]; simpl; [discriminate|].
  destruct (p d) eqn:E; [exact IH|].
  intros H; injection H as -> _. exact E.
Qed.

Lemma forallb_dropWhile (q : A -> bool) (s : list A) :
  forallb q s = true -> forallb q (dropWhile p s) = true.
Proof.
  induction s as [|c s IH]; simpl; [reflexivity|].
  intros H. destruct (p c); [|exact H].
  apply andb_true_iff in H. now apply IH.
Qed.

Lemma before_trailing_app (s : list A) : before_trailing p s ++ trailing p s = s.
Proof.
  induction s as [|c s IH]; [reflexivity|].
  cbn [before_trailing trailing]. destruct (forallb p (c :: s)); [reflexivity|].
  simpl. now rewrite IH.
Qed.

Lemma trailing_all (s : list A) : forallb p (trailing p s) = true.
Proof.
  induction s as [|c s IH]; [reflexivity|].
  cbn [trailing]. destruct (forallb p (c :: s)) eqn:E; [exact E | exact IH].
Qed.

Lemma forallb_before_trailing (q : A -> bool) (s : list A) :
  forallb q s = true -> forallb q (before_trailing p s) = true.
Proof.
  induction s as [|c s IH]; [reflexivity|].
  cbn [before_trailing]. intros H. destruct (forallb p (c :: s)); [reflexivity|].
  simpl in *. apply andb_true_iff in H. destruct H as [-> H]. now apply IH.
Qed.

Lemma before_trailing_nil (s : list A) :
  before_trailing p s = [] -> forallb p s = true.
Proof.
  destruct s as [|c s]; [reflexivity|].
  cbn [before_trailing]. destruct (forallb p (c :: s)); [reflexivity | discriminate].
Qed.

Lemma firstn_cut (a b : list A) : firstn (length (a ++ b) - length b) (a ++ b) = a.
Proof.
  rewrite length_app, Nat.add_sub.
  rewrite firstn_app, Nat.sub_diag, firstn_all. simpl. apply app_nil_r.
Qed.
End RunFacts.

(** ** The backtracking matcher on the three expressions *)

Section Backtracking.
Variable p : code -> bool.
Variable cs : list (nat * str).

(** A greedy run gives nothing back when the continuation fails wherever
    the run could have gone on. *)
Lemma repeat_greedy_skip (k : cont) (s : str) :
  (forall c s', p c = true -> k (MState (c :: s') cs) = None) ->
  repeat_greedy p s cs k = k (MState (dropWhile p s) cs).
Proof.
  intros Hk. induction s as [|c s IH]; simpl; [reflexivity|].
  destruct (p c) eqn:E; [|reflexivity].
  rewrite IH. destruct (k (MState (dropWhile p s) cs)) eqn:K; [reflexivity|].
  now apply Hk.
Qed.

(** Nor when a failure of the continuation on a suffix carries over to the
    longer suffixes. *)
Lemma repeat_greedy_suffix (k : cont) (s : str) :
  (forall c s', k (MState s' cs) = None -> k (MState (c :: s') cs) = None) ->
  repeat_greedy p s cs k = k (MState (dropWhile p s) cs).
Proof.
  intros Hk.
  assert (Hd : forall u, k (MState (dropWhile p u) cs) = None -> k (MState u cs) = None).
  { induction u as [|c u IH]; simpl; [easy|].
    destruct (p c); [|easy]. intros H. apply Hk, IH, H. }
  induction s as [|c s IH]; simpl; [reflexivity|].
  destruct (p c) eqn:E; [|reflexivity].
  rewrite IH. destruct (k (MState (dropWhile p s) cs)) eqn:K; [reflexivity|].
  apply Hk, Hd, K.
Qed.

(** The longest run is taken when the continuation accepts it. *)
Lemma repeat_greedy_first (k : cont) (s : str) y :
  k (MState (dropWhile p s) cs) = Some y -> repeat_greedy p s cs k = Some y.
Proof.
  induction s as [|c s IH]; simpl; [easy|].
  destruct (p c); [|easy]. intros H. now rewrite (IH H).
Qed.

(** A greedy run that must reach the end of the input. *)
Lemma repeat_greedy_end (k : cont) (s : str) :
  repeat_greedy p s cs
    (fun y => match rest y with [] => k y | _ :: _ => None end)
  = if forallb p s then k (MState [] cs) else None.
Proof.
  induction s as [|c s IH]; simpl; [reflexivity|].
  destruct (p c); simpl; [|reflexivity].
  rewrite IH. destruct (forallb p s); [|reflexivity].
  now destruct (k (MState [] cs)).
Qed.

(** A lazy run over characters of the class stops at the first suffix that
    the continuation accepts; here the continuation accepts the suffixes
    made of [q] only. *)
Lemma repeat_lazy_trailing (q : code -> bool) (k : cont) (h : str -> mstate) (s : str) :
  forallb p s = true ->
  (forall u, k (MState u cs) = if forallb q u then Some (h u) else None) ->
  repeat_lazy p s cs k = Some (h (trailing q s)).
Proof.
  intros Hp Hk. induction s as [|c s IH].
  - simpl. now rewrite Hk.
  - cbn [repeat_lazy trailing]. rewrite Hk.
    destruct (forallb q (c :: s)); [reflexivity|].
    simpl in Hp. apply andb_true_iff in Hp. destruct Hp as [-> Hp]. now apply IH.
Qed.
End Backtracking.

(** An expression that starts with [^] matches at index 0 or not at all. *)
Lemma scan_anchored (input : str) (r : regex) (s : str) :
  length s < length input -> scan input (Seq AssertStart r) s = None.
Proof.
  induction s as [|c s IH]; intros H; cbn [scan matcher rest].
  - destruct input; simpl in *; [lia | reflexivity].
  - replace (Nat.eqb (length (c :: s)) (length input)) with false
      by (symmetry; apply Nat.eqb_neq; lia).
    apply IH. simpl in H. lia.
Qed.

Lemma exec_anchored (r : regex) (s : str) :
  exec (Seq AssertStart r) s = matcher s r (MState s []) (fun y => Some y).
Proof.
  unfold exec. destruct s as [|c s]; cbn [scan matcher rest].
  - simpl. now destruct (matcher [] r (MState [] []) (fun y => Some y)).
  - rewrite Nat.eqb_refl.
    destruct (matcher (c :: s) r (MState (c :: s) []) (fun y => Some y)); [reflexivity|].
    apply scan_anchored. simpl. lia.
Qed.

Lemma bullet_not_space (c : code) : cls_bullet c = true -> cls_space c = false.
Proof.
  unfold cls_bullet. intros H. apply orb_true_iff in H.
  destruct H as [H|H]; apply N.eqb_eq in H; subst c; reflexivity.
Qed.

Section Unfolding.
Variable input : str.

Lemma matcher_Seq r1 r2 x k :
  matcher input (Seq r1 r2) x k = matcher input r1 x (fun y => matcher input r2 y k).
Proof. reflexivity. Qed.

Lemma matcher_CharClass q c s cs k :
  matcher input (CharClass q) (MState (c :: s) cs) k
  = if q c then k (MState s cs) else None.
Proof. reflexivity. Qed.

Lemma matcher_Star q s cs k :
  matcher input (Star q) (MState s cs) k = repeat_greedy q s cs k.
Proof. reflexivity. Qed.

Lemma matcher_Plus q c s cs k :
  matcher input (Plus q) (MState (c :: s) cs) k
  = if q c then repeat_greedy q s cs k else None.
Proof. reflexivity. Qed.

Lemma matcher_Group n r s cs k :
  matcher input (Group n r) (MState s cs) k
  = matcher input r (MState s cs)
      (fun y => k (MState (rest y) ((n, firstn (length s - length (rest y)) s) :: caps y))).
Proof. reflexivity. Qed.

(** The tail [( .* ) $] of [reList] and [reItem]. *)
Lemma capture_to_end (n : nat) (q : code -> bool) (k : cont) (s : str) (cs : list (nat * str)) :
  matcher input (Seq (Group n (Star q)) AssertEnd) (MState s cs) k
  = if forallb q s then k (MState [] ((n, s) :: cs)) else None.
Proof.
  cbn [matcher rest caps].
  rewrite (repeat_greedy_end q cs
             (fun y => k (MState (rest y) ((n, firstn (length s - length (rest y)) s) :: caps y)))).
  cbn [rest caps length]. now rewrite Nat.sub_0_r, firstn_all.
Qed.

(** The part [[*-] \s* ( .* ) $] that [reList] and [reItem] share. *)
Lemma bullet_tail (s : str) :
  matcher input
    (Seq (CharClass cls_bullet) (Seq (Star cls_space) (Seq (Group 1 (Star cls_dot)) AssertEnd)))
    (MState s []) (fun y => Some y)
  = option_map (fun b => MState [] [(1, b)]) (list_line s).
Proof.
  destruct s as [|c s]; [reflexivity|].
  rewrite matcher_Seq, matcher_CharClass. cbn [list_line].
  destruct (cls_bullet c); [|reflexivity].
  rewrite matcher_Seq, matcher_Star, repeat_greedy_suffix.
  - rewrite capture_to_end. now destruct (forallb cls_dot (dropWhile cls_space s)).
  - intros d s'. rewrite !capture_to_end. simpl.
    destruct (forallb cls_dot s'); [discriminate|]. now rewrite andb_false_r.
Qed.
End Unfolding.

Lemma exec_reList (l : str) :
  exec reList l = option_map (fun b => MState [] [(1, b)]) (list_line l).
Proof. unfold reList. rewrite exec_anchored. apply bullet_tail. Qed.

Lemma exec_reItem (l : str) :
  exec reItem l = option_map (fun b => MState [] [(1, b)]) (item_line l).
Proof.
  unfold reItem. rewrite exec_anchored.
  destruct l as [|c s]; [reflexivity|].
  rewrite matcher_Seq, matcher_Plus. cbn [item_line].
  destruct (cls_space c); [|reflexivity].
  rewrite repeat_greedy_skip.
  - apply bullet_tail.
  - intros d s' Hd. rewrite matcher_Seq, matcher_CharClass.
    destruct (cls_bullet d) eqn:B; [|reflexivity].
    apply bullet_not_space in B. congruence.
Qed.

(** On a text without line terminators [reText] always matches: the left
    run is the longest one, the middle the shortest one that leaves only
    markers. *)
Lemma exec_reText (t : str) :
  forallb cls_dot t = true ->
  exec reText t
  = Some (MState [] [(3, text_right t); (2, text_middle t); (1, text_left t)]).
Proof.
  intros Ht. unfold reText. rewrite exec_anchored.
  rewrite matcher_Seq, matcher_Group, matcher_Star.
  apply repeat_greedy_first. cbn [rest caps].
  rewrite matcher_Seq, matcher_Group. cbn [matcher rest caps].
  set (u := dropWhile cls_marker t).
  rewrite (repeat_lazy_trailing cls_dot _ cls_marker _
    (fun v => MState [] [(3, v); (2, firstn (length u - length v) u);
                         (1, firstn (length t - length u) t)])).
  - assert (E2 : firstn (length u - length (trailing cls_marker u)) u = text_middle t).
    { unfold text_middle. fold u.
      rewrite <- (before_trailing_app cls_marker u) at 1 3. apply firstn_cut. }
    assert (E1 : firstn (length t - length u) t = text_left t).
    { unfold text_left, u.
      rewrite <- (takeWhile_dropWhile cls_marker t) at 1 3. apply firstn_cut. }
    now rewrite E1, E2.
  - now apply forallb_dropWhile.
  - intros v. cbn [rest caps].
    rewrite (repeat_greedy_end cls_marker _
      (fun z => Some (MState (rest z)
         ((3, firstn (length v - length (rest z)) v) :: caps z)))).
    cbn [rest caps length]. now rewrite Nat.sub_0_r, firstn_all.
Qed.

(** ** The parser, line by line *)

Lemma list_line_dot (l n : str) : list_line l = Some n -> forallb cls_dot n = true.
Proof.
  destruct l as [|c r]; simpl; [discriminate|].
  destruct (cls_bullet c); [|discriminate].
  destruct (forallb cls_dot (dropWhile cls_space r)) eqn:E; [|discriminate].
  now intros [= <-].
Qed.

Lemma list_line_no_space (l n : str) : list_line l = Some n -> starts_with cls_space n = false.
Proof.
  destruct l as [|c r]; simpl; [discriminate|].
  destruct (cls_bullet c); [|discriminate].
  destruct (forallb cls_dot (dropWhile cls_space r)); [|discriminate].
  intros [= <-]. destruct (dropWhile cls_space r) as [|d u] eqn:E; [reflexivity|].
  simpl. now apply dropWhile_head in E.
Qed.

Lemma item_line_dot (l t : str) : item_line l = Some t -> forallb cls_dot t = true.
Proof.
  destruct l as [|c r]; simpl; [discriminate|].
  destruct (cls_space c); [|discriminate]. apply list_line_dot.
Qed.

(** No line is both a list line and an item line. *)
Lemma item_line_not_list (l t : str) : item_line l = Some t -> list_line l = None.
Proof.
  destruct l as [|c r]; simpl; [discriminate|].
  destruct (cls_space c) eqn:E; [|discriminate]. intros _.
  destruct (cls_bullet c) eqn:B; [|reflexivity].
  apply bullet_not_space in B. congruence.
Qed.

Lemma emphasis_length_group (n : nat) (m : mstate) :
  emphasis_length n m = length (group n m).
Proof. unfold emphasis_length. now destruct (group n m). Qed.

Lemma forEach_line_parse (model : t) (l : str) :
  forEach_line model l = Some (parse_line model l).
Proof.
  unfold forEach_line, parse_line. rewrite exec_reList, exec_reItem.
  destruct (list_line l) as [n|]; [reflexivity|]. simpl.
  destruct (item_line l) as [text|] eqn:E; [|reflexivity]. simpl.
  destruct (Nat.eqb (getLength model) 0); [reflexivity|].
  unfold group at 1. simpl.
  rewrite (exec_reText _ (item_line_dot _ E)).
  now rewrite !emphasis_length_group.
Qed.

Lemma forEach_fold (lines : list str) (model : t) :
  forEach lines model = Some (fold_left parse_line lines model).
Proof.
  revert model. induction lines as [|l lines IH]; intros model; simpl; [reflexivity|].
  rewrite forEach_line_parse. apply IH.
Qed.

Lemma deserialize_fold (s : str) :
  deserialize (Str s) = fold_left parse_line (split LF s) new.
Proof. unfold deserialize, deserialize_try. now rewrite forEach_fold. Qed.

(** ** What the parser builds *)

Section UpdateAt.
Variable A : Type.

Lemma update_at_last (f : A -> A) (pre : list A) (x : A) :
  update_at (length (pre ++ [x]) - 1) f (pre ++ [x]) = pre ++ [f x].
Proof.
  rewrite length_app, Nat.add_sub. induction pre as [|y pre IH]; simpl; [reflexivity|].
  now rewrite IH.
Qed.

Lemma Forall_update_at (P : A -> Prop) (f : A -> A) (i : nat) (a : list A) :
  (forall x, P x -> P (f x)) -> Forall P a -> Forall P (update_at i f a).
Proof.
  intros Hf H. revert i. induction H as [|x a Hx H IH]; intros i.
  - destruct i; constructor.
  - destruct i; simpl; constructor; auto.
Qed.

Lemma update_at_nth (f : A -> A) (i : nat) (a : list A) (x : A) :
  nth_error a i = Some x ->
  update_at i f a = firstn i a ++ f x :: skipn (S i) a.
Proof.
  revert i. induction a as [|y a IH]; intros [|i]; simpl; try discriminate.
  - now intros [= ->].
  - intros H. now rewrite (IH _ H).
Qed.
End UpdateAt.

Lemma ends_with_before_trailing (p : code -> bool) (s : str) :
  ends_with p (before_trailing p s) = false.
Proof.
  induction s as [|c s IH]; [reflexivity|].
  cbn [before_trailing]. destruct (forallb p (c :: s)) eqn:E; [reflexivity|].
  cbn [ends_with]. destruct (before_trailing p s) as [|d u] eqn:B; [|exact IH].
  apply before_trailing_nil in B. simpl in E. now rewrite B, andb_true_r in E.
Qed.

Lemma starts_with_before_trailing (p : code -> bool) (s : str) :
  starts_with p s = false -> starts_with p (before_trailing p s) = false.
Proof.
  destruct s as [|c s]; [reflexivity|].
  cbn [before_trailing]. now destruct (forallb p (c :: s)).
Qed.

Lemma starts_with_dropWhile (p : code -> bool) (s : str) :
  starts_with p (dropWhile p s) = false.
Proof.
  destruct (dropWhile p s) as [|c u] eqn:E; [reflexivity|].
  simpl. now apply dropWhile_head in E.
Qed.

Lemma starts_with_all (p : code -> bool) (s : str) :
  starts_with p s = false -> forallb p s = true -> s = [].
Proof. destruct s as [|c s]; [reflexivity|]. simpl. now intros ->. Qed.

Lemma text_parts (t : str) : text_left t ++ text_middle t ++ text_right t = t.
Proof.
  unfold text_left, text_middle, text_right.
  now rewrite before_trailing_app, takeWhile_dropWhile.
Qed.

(** The item made from an item text. *)
Lemma parsed_item_text (t : str) :
  forallb cls_dot t = true ->
  parsed_item
    (KanbanModelItem.new (text_middle t)
       (Nat.min 3 (Nat.min (length (text_left t)) (length (text_right t))))).
Proof.
  intros Ht. unfold parsed_item, text_middle, text_right.
  cbn [KanbanModelItem.name KanbanModelItem.importance].
  pose proof (starts_with_dropWhile cls_marker t) as Hu.
  set (u := dropWhile cls_marker t) in *.
  repeat split.
  - now apply forallb_before_trailing, forallb_dropWhile.
  - now apply starts_with_before_trailing.
  - apply ends_with_before_trailing.
  - apply Nat.le_min_l.
  - intros Hi Hm. apply Hi. apply before_trailing_nil in Hm.
    rewrite (starts_with_all _ _ Hu Hm). cbn [trailing forallb length].
    now rewrite Nat.min_0_r, Nat.min_0_r.
Qed.

Lemma parse_line_parsed (model : t) (l : str) :
  Forall parsed_list (lists model) -> Forall parsed_list (lists (parse_line model l)).
Proof.
  intros H. unfold parse_line.
  destruct (list_line l) as [n|] eqn:L.
  - simpl. unfold push. apply Forall_app. split; [exact H|].
    constructor; [|constructor]. unfold parsed_list. simpl.
    repeat split; [eapply list_line_dot | eapply list_line_no_space | constructor]; eauto.
  - destruct (item_line l) as [text|] eqn:I; [|exact H].
    destruct (Nat.eqb (getLength model) 0); [exact H|]. simpl.
    apply Forall_update_at; [|exact H].
    intros x (Hd & Hs & Hi). unfold parsed_list. simpl. repeat split; auto.
    unfold push. apply Forall_app. split; [exact Hi|].
    constructor; [|constructor]. apply parsed_item_text. eapply item_line_dot; eauto.
Qed.

Lemma fold_parse_line_parsed (lines : list str) (model : t) :
  Forall parsed_list (lists model) ->
  Forall parsed_list (lists (fold_left parse_line lines model)).
Proof.
  revert model. induction lines as [|l lines IH]; intros model H; simpl; [exact H|].
  now apply IH, parse_line_parsed.
Qed.

Lemma deserialize_parsed (a : argument) : Forall parsed_list (lists (deserialize a)).
Proof.
  destruct a as [|s]; [constructor|].
  rewrite deserialize_fold. apply fold_parse_line_parsed. constructor.
Qed.

(** ** Joining and splitting lines *)

Lemma join_cons (sep x : str) (l : list str) :
  l <> [] -> join sep (x :: l) = x ++ sep ++ join sep l.
Proof. destruct l; [congruence | reflexivity]. Qed.

Lemma join_app (sep : str) (l1 l2 : list str) :
  l1 <> [] -> l2 <> [] -> join sep (l1 ++ l2) = join sep l1 ++ sep ++ join sep l2.
Proof.
  intros H1 H2. induction l1 as [|x l1 IH]; [congruence|].
  destruct l1 as [|y l1].
  - simpl app. now rewrite join_cons.
  - change ((x :: y :: l1) ++ l2) with (x :: (y :: l1) ++ l2).
    rewrite join_cons by discriminate. rewrite IH by discriminate.
    rewrite (join_cons sep x (l := y :: l1)) by discriminate.
    now rewrite <- !app_assoc.
Qed.

(** Joining blocks that are themselves joined lines is joining all the lines. *)
Lemma join_blocks (sep : str) (blocks : list (list str)) :
  Forall (fun b => b <> []) blocks ->
  join sep (map (join sep) blocks) = join sep (concat blocks).
Proof.
  induction 1 as [|b blocks Hb H IH]; [reflexivity|].
  destruct blocks as [|b' blocks].
  - simpl. now rewrite app_nil_r.
  - change (map (join sep) (b :: b' :: blocks))
      with (join sep b :: map (join sep) (b' :: blocks)).
    rewrite join_cons by discriminate. rewrite IH.
    change (concat (b :: b' :: blocks)) with (b ++ concat (b' :: blocks)).
    rewrite join_app; [reflexivity | exact Hb |].
    apply Forall_inv in H. simpl.
    destruct b'; [now elim H | discriminate].
Qed.

Lemma split_field (sep : code) (l : str) : ~ In sep l -> split sep l = [l].
Proof.
  induction l as [|c l IH]; intros H; simpl; [reflexivity|].
  destruct (code_eqb c sep) eqn:E.
  - apply N.eqb_eq in E. subst. exfalso. apply H. now left.
  - rewrite IH; [reflexivity|]. intros F. apply H. now right.
Qed.

Lemma split_app (sep : code) (l s : str) :
  ~ In sep l -> split sep (l ++ sep :: s) = l :: split sep s.
Proof.
  induction l as [|c l IH]; intros H; simpl.
  - unfold code_eqb. now rewrite N.eqb_refl.
  - destruct (code_eqb c sep) eqn:E.
    + apply N.eqb_eq in E. subst. exfalso. apply H. now left.
    + rewrite IH; [reflexivity|]. intros F. apply H. now right.
Qed.

Lemma split_join (sep : code) (ls : list str) :
  Forall (fun l => ~ In sep l) ls ->
  split sep (join [sep] ls) = match ls with [] => [[]] | _ :: _ => ls end.
Proof.
  intros H. induction H as [|l ls Hl H IH]; [reflexivity|].
  destruct ls as [|l' ls].
  - simpl. now apply split_field.
  - rewrite join_cons by discriminate.
    change ([sep] ++ join [sep] (l' :: ls)) with (sep :: join [sep] (l' :: ls)).
    rewrite split_app by exact Hl. now rewrite IH.
Qed.

Lemma dot_no_LF (l : str) : forallb cls_dot l = true -> ~ In LF l.
Proof.
  intros H F. rewrite forallb_forall in H. now apply H in F.
Qed.

(** ** Printing, then parsing *)

Lemma serialize_lines (b : t) : serialize b = join [LF] (board_lines b).
Proof.
  unfold serialize, board_lines. rewrite flat_map_concat_map, <- join_blocks.
  - now rewrite map_map.
  - apply Forall_forall. intros x Hx. apply in_map_iff in Hx.
    destruct Hx as (l & <- & _). discriminate.
Qed.

Section RunsOfApp.
Variable p : code -> bool.

Lemma takeWhile_app_all (a b : str) :
  forallb p a = true -> takeWhile p (a ++ b) = a ++ takeWhile p b.
Proof.
  induction a as [|c a IH]; simpl; [reflexivity|].
  intros H. apply andb_true_iff in H. destruct H as [-> H]. now rewrite IH.
Qed.

Lemma dropWhile_app_all (a b : str) :
  forallb p a = true -> dropWhile p (a ++ b) = dropWhile p b.
Proof.
  induction a as [|c a IH]; simpl; [reflexivity|].
  intros H. apply andb_true_iff in H. destruct H as [-> H]. now rewrite IH.
Qed.

Lemma takeWhile_none (s : str) : starts_with p s = false -> takeWhile p s = [].
Proof. destruct s as [|c s]; simpl; [reflexivity|]. now intros ->. Qed.

Lemma dropWhile_none (s : str) : starts_with p s = false -> dropWhile p s = s.
Proof. destruct s as [|c s]; simpl; [reflexivity|]. now intros ->. Qed.

Lemma ends_with_not_all (a b : str) :
  ends_with p a = false -> a <> [] -> forallb p (a ++ b) = false.
Proof.
  induction a as [|c a IH]; [congruence|]. intros H _.
  destruct a as [|d a].
  - simpl in *. now rewrite H.
  - change (ends_with p (d :: a) = false) in H. simpl.
    simpl in IH. rewrite IH by (exact H || discriminate). apply andb_false_r.
Qed.

Lemma ends_with_tail (c : code) (a : str) :
  ends_with p (c :: a) = false -> ends_with p a = false.
Proof. destruct a; [reflexivity | easy]. Qed.

Lemma trailing_app_all (a b : str) :
  ends_with p a = false -> forallb p b = true ->
  before_trailing p (a ++ b) = a /\ trailing p (a ++ b) = b.
Proof.
  intros Ha Hb. induction a as [|c a IH].
  - simpl app. destruct b as [|d b]; [now split|].
    cbn [before_trailing trailing]. now rewrite Hb.
  - change ((c :: a) ++ b) with (c :: a ++ b). cbn [before_trailing trailing].
    change (c :: a ++ b) with ((c :: a) ++ b).
    rewrite (ends_with_not_all _ Ha) by discriminate.
    destruct (IH (ends_with_tail _ _ Ha)) as [-> ->]. now split.
Qed.
End RunsOfApp.

Lemma forallb_repeat (p : code -> bool) (c : code) (n : nat) :
  p c = true -> forallb p (repeat c n) = true.
Proof. intros H. induction n as [|n IH]; simpl; [reflexivity|]. now rewrite H. Qed.

Lemma name_then_stars (i : KanbanModelItem.t) :
  parsed_item i ->
  starts_with cls_marker
    (KanbanModelItem.name i ++ repeat 42%N (KanbanModelItem.importance i)) = false.
Proof.
  intros (_ & Hs & _ & _ & Hn). destruct i as [n k]. simpl in *.
  destruct n as [|c n]; [|exact Hs].
  destruct k as [|k]; [reflexivity|]. now elim Hn.
Qed.

(** The printed form of a parsed item is taken apart into the item again. *)
Lemma item_markdown_text (i : KanbanModelItem.t) :
  parsed_item i ->
  text_left (item_markdown i) = repeat 42%N (KanbanModelItem.importance i)
  /\ text_middle (item_markdown i) = KanbanModelItem.name i
  /\ text_right (item_markdown i) = repeat 42%N (KanbanModelItem.importance i).
Proof.
  intros Hi. pose proof (name_then_stars Hi) as Hs.
  destruct Hi as (_ & _ & He & _ & _).
  assert (Hst : forallb cls_marker (repeat 42%N (KanbanModelItem.importance i)) = true)
    by apply (@forallb_repeat cls_marker 42%N _ eq_refl).
  unfold text_left, text_middle, text_right, item_markdown.
  rewrite takeWhile_app_all, dropWhile_app_all by exact Hst.
  rewrite takeWhile_none, dropWhile_none by exact Hs.
  destruct (trailing_app_all cls_marker _ _ He Hst) as [-> ->].
  now rewrite app_nil_r.
Qed.

Lemma item_markdown_dot (i : KanbanModelItem.t) :
  parsed_item i -> forallb cls_dot (item_markdown i) = true.
Proof.
  intros (Hd & _). unfold item_markdown. rewrite !forallb_app, Hd.
  now rewrite !(@forallb_repeat cls_dot 42%N _ eq_refl).
Qed.

Lemma item_markdown_no_space (i : KanbanModelItem.t) :
  bare_space_item i = false -> starts_with cls_space (item_markdown i) = false.
Proof.
  unfold bare_space_item, item_markdown. destruct i as [n [|k]]; simpl.
  - now rewrite app_nil_r.
  - reflexivity.
Qed.

Lemma list_line_printed (n : str) :
  list_line (lit "* " ++ n)
  = if forallb cls_dot (dropWhile cls_space n) then Some (dropWhile cls_space n) else None.
Proof. reflexivity. Qed.

Lemma item_line_printed (n : str) :
  item_line (lit "  * " ++ n)
  = if forallb cls_dot (dropWhile cls_space n) then Some (dropWhile cls_space n) else None.
Proof. reflexivity. Qed.

Lemma parse_list_markdown (model : t) (l : KanbanModelList.t) :
  parsed_list l ->
  parse_line model (lit "* " ++ KanbanModelList.name l)
  = addList (KanbanModelList.name l) model.
Proof.
  intros (Hd & Hs & _). unfold parse_line.
  now rewrite list_line_printed, (dropWhile_none _ _ Hs), Hd.
Qed.

Lemma parse_item_markdown (pre : list KanbanModelList.t) (l : KanbanModelList.t)
    (i : KanbanModelItem.t) :
  parsed_item i ->
  parse_line (make (pre ++ [l])) (lit "  * " ++ item_markdown i)
  = make (pre ++ [KanbanModelList.make (KanbanModelList.name l)
                    (KanbanModelList.items l ++ [reparse_item i])]).
Proof.
  intros Hi. unfold parse_line.
  assert (E : item_line (lit "  * " ++ item_markdown i)
              = Some (dropWhile cls_space (item_markdown i))).
  { rewrite item_line_printed.
    now rewrite (forallb_dropWhile cls_space cls_dot _ (item_markdown_dot Hi)). }
  rewrite (item_line_not_list _ E), E.
  unfold getLength. cbn [lists]. rewrite update_at_last.
  replace (Nat.eqb (length (pre ++ [l])) 0) with false
    by (symmetry; apply Nat.eqb_neq; rewrite length_app; simpl; lia).
  reflexivity.
Qed.

Lemma reparse_item_fixed (i : KanbanModelItem.t) :
  parsed_item i -> bare_space_item i = false -> reparse_item i = i.
Proof.
  intros Hi Hb. unfold reparse_item.
  rewrite (dropWhile_none _ _ (item_markdown_no_space _ Hb)).
  destruct (item_markdown_text Hi) as (-> & -> & ->).
  rewrite repeat_length, Nat.min_id.
  destruct Hi as (_ & _ & _ & Hk & _). rewrite (Nat.min_r _ _ Hk).
  now destruct i.
Qed.

Lemma length_dropWhile (A : Type) (p : A -> bool) (s : list A) :
  length (dropWhile p s) <= length s.
Proof.
  induction s as [|c s IH]; simpl; [lia|]. destruct (p c); simpl; lia.
Qed.

Lemma length_before_trailing (A : Type) (p : A -> bool) (s : list A) :
  length (before_trailing p s) <= length s.
Proof.
  induction s as [|c s IH]; [simpl; lia|].
  cbn [before_trailing]. destruct (forallb p (c :: s)); simpl; lia.
Qed.

(** An item printed with white space at its start comes back with a
    shorter name. *)
Lemma reparse_item_moved (i : KanbanModelItem.t) :
  bare_space_item i = true -> reparse_item i <> i.
Proof.
  unfold bare_space_item. intros H. apply andb_true_iff in H. destruct H as [Hk Hs].
  apply Nat.eqb_eq in Hk. destruct i as [n k]. simpl in *. subst k.
  destruct n as [|c n]; [discriminate|]. simpl in Hs.
  unfold reparse_item, item_markdown, text_middle. simpl. rewrite Hs, app_nil_r.
  intros E. apply (f_equal (fun j => length (KanbanModelItem.name j))) in E. simpl in E.
  pose proof (length_before_trailing cls_marker (dropWhile cls_marker (dropWhile cls_space n))).
  pose proof (length_dropWhile cls_marker (dropWhile cls_space n)).
  pose proof (length_dropWhile cls_space n). lia.
Qed.

Lemma fold_item_lines (pre : list KanbanModelList.t) (n : str)
    (its0 its : list KanbanModelItem.t) :
  Forall parsed_item its ->
  fold_left parse_line (map (fun i => lit "  * " ++ item_markdown i) its)
    (make (pre ++ [KanbanModelList.make n its0]))
  = make (pre ++ [KanbanModelList.make n (its0 ++ map reparse_item its)]).
Proof.
  intros H. revert its0.
  induction H as [|i its Hi H IH]; intros its0; cbn [map fold_left].
  - now rewrite app_nil_r.
  - rewrite parse_item_markdown by exact Hi.
    cbn [KanbanModelList.name KanbanModelList.items].
    rewrite IH. now rewrite <- app_assoc.
Qed.

Lemma fold_list_blocks (acc ls : list KanbanModelList.t) :
  Forall parsed_list ls ->
  fold_left parse_line (flat_map list_block ls) (make acc)
  = make (acc ++ map reparse_list ls).
Proof.
  intros H. revert acc. induction H as [|l ls Hl H IH]; intros acc; cbn [flat_map fold_left map].
  - now rewrite app_nil_r.
  - rewrite fold_left_app.
    change (list_block l) with
      ((lit "* " ++ KanbanModelList.name l)
       :: map (fun i => lit "  * " ++ item_markdown i) (KanbanModelList.items l)).
    cbn [fold_left].
    rewrite (parse_list_markdown _ Hl). unfold addList, push, KanbanModelList.new.
    cbn [lists]. rewrite fold_item_lines by now destruct Hl as (_ & _ & Hl).
    rewrite IH. now rewrite <- app_assoc.
Qed.

Lemma board_lines_no_LF (b : t) :
  Forall parsed_list (lists b) -> Forall (fun l => ~ In LF l) (board_lines b).
Proof.
  intros H. apply Forall_forall. intros x Hx. apply dot_no_LF.
  unfold board_lines in Hx. apply in_flat_map in Hx. destruct Hx as (l & Hl & Hx).
  rewrite Forall_forall in H. destruct (H _ Hl) as (Hd & _ & Hi).
  destruct Hx as [<- | Hx].
  - rewrite forallb_app. now rewrite Hd.
  - apply in_map_iff in Hx. destruct Hx as (i & <- & Hin).
    rewrite Forall_forall in Hi. rewrite forallb_app.
    now rewrite (item_markdown_dot (Hi _ Hin)).
Qed.

(** Printing a board made of parsed lists and parsing the result parses
    every item again. *)
Lemma deserialize_serialize (b : t) :
  Forall parsed_list (lists b) ->
  deserialize (Str (serialize b)) = make (map reparse_list (lists b)).
Proof.
  intros H. rewrite deserialize_fold, serialize_lines.
  rewrite split_join by now apply board_lines_no_LF.
  destruct (board_lines b) as [|x xs] eqn:E.
  - destruct b as [[|l ls]]; [reflexivity | discriminate].
  - rewrite <- E. unfold board_lines, new. now rewrite (fold_list_blocks [] H).
Qed.

Lemma map_fixed (A : Type) (f : A -> A) (l : list A) :
  map f l = l <-> forall x, In x l -> f x = x.
Proof.
  induction l as [|y l IH]; simpl; [easy|]. split.
  - intros [= Hy Hl] x [<- | Hx]; [exact Hy | now apply IH].
  - intros H. rewrite (H y) by now left. f_equal. apply IH. intros x Hx. apply H. now right.
Qed.

(** The parsed boards that printing and parsing give back are those without
    an item that prints with white space at its start. *)
Lemma reparse_fixed_iff (b : t) :
  Forall parsed_list (lists b) ->
  make (map reparse_list (lists b)) = b <-> no_bare_space b.
Proof.
  intros H. rewrite Forall_forall in H. unfold no_bare_space.
  destruct b as [ls]. cbn [lists] in *. split.
  - intros [= E] l i Hl Hi. rewrite map_fixed in E. specialize (E l Hl).
    unfold reparse_list in E. destruct l as [n its]. cbn [KanbanModelList.items KanbanModelList.name] in *.
    injection E as E. rewrite map_fixed in E. specialize (E i Hi).
    destruct (bare_space_item i) eqn:B; [|reflexivity].
    now apply reparse_item_moved in B.
  - intros Hb. f_equal. apply map_fixed. intros l Hl.
    destruct (H l Hl) as (_ & _ & Hi). rewrite Forall_forall in Hi.
    unfold reparse_list. destruct l as [n its]. cbn [KanbanModelList.items KanbanModelList.name] in *.
    f_equal. apply map_fixed. intros i Hin.
    apply reparse_item_fixed; [now apply Hi | now apply (Hb _ _ Hl)].
Qed.

(** ** Equality *)

Lemma str_eqb_eq (a b : str) : str_eqb a b = true <-> a = b.
Proof.
  revert b. induction a as [|x a IH]; intros [|y b]; simpl; try easy.
  unfold code_eqb. rewrite andb_true_iff, N.eqb_eq, IH. split.
  - now intros [-> ->].
  - now intros [= -> ->].
Qed.

Lemma equalArrays_eq (A : Type) (eq : A -> A -> bool) (a b : list A) :
  (forall x y, eq x y = true <-> x = y) -> equalArrays eq a b = true <-> a = b.
Proof.
  intros Heq. revert b. induction a as [|x a IH]; intros [|y b]; simpl; try easy.
  rewrite andb_true_iff, Heq, IH. split.
  - now intros [-> ->].
  - now intros [= -> ->].
Qed.

Lemma equalItems_eq (a b : KanbanModelItem.t) : equalItems a b = true <-> a = b.
Proof.
  unfold equalItems. rewrite andb_true_iff, str_eqb_eq, Nat.eqb_eq.
  destruct a, b; simpl. split.
  - now intros [-> ->].
  - now intros [= -> ->].
Qed.

Lemma equalLists_eq (a b : KanbanModelList.t) : equalLists a b = true <-> a = b.
Proof.
  unfold equalLists. rewrite andb_true_iff, str_eqb_eq, (@equalArrays_eq _ _ _ _ equalItems_eq).
  destruct a, b; simpl. split.
  - now intros [-> ->].
  - now intros [= -> ->].
Qed.

Lemma equals_eq (a b : t) : equals a b = true <-> a = b.
Proof.
  unfold equals. rewrite (@equalArrays_eq _ _ _ _ equalLists_eq).
  destruct a, b; simpl. split.
  - now intros ->.
  - now intros [= ->].
Qed.

(** ** Arrays at indices in range *)

Section ArrayFacts.
Variable A : Type.

Lemma array_get_nat (i : nat) (a : list A) : array_get (Z.of_nat i) a = nth_error a i.
Proof.
  unfold array_get. destruct (Z.ltb_spec (Z.of_nat i) 0); [lia|]. now rewrite Nat2Z.id.
Qed.

Lemma array_get_some (i : Z) (a : list A) :
  (0 <= i < Z.of_nat (length a))%Z -> exists x, nth_error a (Z.to_nat i) = Some x /\ array_get i a = Some x.
Proof.
  intros H. unfold array_get. destruct (Z.ltb_spec i 0); [lia|].
  destruct (nth_error a (Z.to_nat i)) as [x|] eqn:E; [now exists x|].
  apply nth_error_None in E. lia.
Qed.

Lemma splice_start_nat (len i : nat) : i <= len -> splice_start len (Z.of_nat i) = i.
Proof.
  intros H. unfold splice_start. destruct (Z.ltb_spec (Z.of_nat i) 0); [lia|].
  rewrite Nat2Z.id. now apply Nat.min_l.
Qed.

Lemma splice_start_in_range (len : nat) (i : Z) :
  (0 <= i < Z.of_nat len)%Z -> splice_start len i = Z.to_nat i.
Proof.
  intros H. unfold splice_start. destruct (Z.ltb_spec i 0); [lia|].
  apply Nat.min_l. lia.
Qed.

Lemma splice_delete1_nat (i : nat) (a : list A) :
  i <= length a -> splice_delete1 (Z.of_nat i) a = remove_nth i a.
Proof. intros H. unfold splice_delete1. now rewrite splice_start_nat. Qed.

Lemma splice_insert_nat (i : nat) (x : A) (a : list A) :
  i <= length a -> splice_insert (Z.of_nat i) x a = insert_nth i x a.
Proof. intros H. unfold splice_insert. now rewrite splice_start_nat. Qed.

Lemma nth_error_cut (i : nat) (a : list A) (x : A) :
  nth_error a i = Some x -> a = firstn i a ++ x :: skipn (S i) a.
Proof.
  revert i. induction a as [|y a IH]; intros [|i]; try discriminate.
  - now intros [= ->].
  - intros H. change (y :: a = y :: (firstn i a ++ x :: skipn (S i) a)).
    f_equal. now apply IH.
Qed.

Lemma update_at_replace (f : A -> A) (i : nat) (a : list A) (x : A) :
  nth_error a i = Some x -> update_at i f a = replace_nth i (f x) a.
Proof.
  intros H. unfold replace_nth. now rewrite !(update_at_nth _ _ _ H).
Qed.

Lemma length_update_at (f : A -> A) (i : nat) (a : list A) :
  length (update_at i f a) = length a.
Proof.
  revert i. induction a as [|y a IH]; intros [|i]; simpl; auto.
Qed.

Lemma splice_insert_perm (i : Z) (x : A) (a : list A) :
  Permutation (splice_insert i x a) (x :: a).
Proof.
  unfold splice_insert. symmetry.
  rewrite <- (firstn_skipn (splice_start (length a) i) a) at 1.
  apply Permutation_middle.
Qed.

Lemma splice_delete1_perm (i : Z) (x : A) (a : list A) :
  (0 <= i < Z.of_nat (length a))%Z -> nth_error a (Z.to_nat i) = Some x ->
  Permutation (x :: splice_delete1 i a) a.
Proof.
  intros Hi Hx. unfold splice_delete1. rewrite splice_start_in_range by exact Hi.
  rewrite (nth_error_cut _ _ Hx) at 3. apply Permutation_middle.
Qed.
End ArrayFacts.

(** Changing one list of a board changes the items of the board as it
    changes the items of that list. *)
Lemma flat_update_at (f : KanbanModelList.t -> KanbanModelList.t) (i : nat)
    (ls : list KanbanModelList.t) (x : KanbanModelList.t) :
  nth_error ls i = Some x ->
  flat_map KanbanModelList.items ls
    = flat_map KanbanModelList.items (firstn i ls) ++ KanbanModelList.items x
      ++ flat_map KanbanModelList.items (skipn (S i) ls)
  /\ flat_map KanbanModelList.items (update_at i f ls)
    = flat_map KanbanModelList.items (firstn i ls) ++ KanbanModelList.items (f x)
      ++ flat_map KanbanModelList.items (skipn (S i) ls).
Proof.
  intros H. rewrite (update_at_nth _ _ _ H). rewrite (nth_error_cut _ _ H) at 1.
  now rewrite !flat_map_app.
Qed.

(** * The properties of the board model *)

(** ** Parsing *)

(** C6. Parsing the three lines [* Todo], [  * Buy milk] and
    [  * **Call mom**] gives a board with the single list [Todo], whose
    items are [Buy milk] with importance 0 and [Call mom] with importance 2,
    in this order. *)
Theorem deserialize_todo :
  deserialize (Str (lit "* Todo" ++ LF :: lit "  * Buy milk" ++ LF :: lit "  * **Call mom**"))
  = make [KanbanModelList.make (lit "Todo")
            [KanbanModelItem.new (lit "Buy milk") 0;
             KanbanModelItem.new (lit "Call mom") 2]].
Proof. vm_compute. reflexivity. Qed.

(** C4. [deserialize] hands no exception to its caller.  On a string the
    [try] block runs to its end and its board is returned; when the block
    throws, the empty board is returned; and a text without bullet lines,
    such as the empty text or two lines of prose, gives the empty board. *)
Theorem deserialize_no_exception :
  (forall s, exists model, deserialize_try (Str s) = Some model /\ deserialize (Str s) = model)
  /\ (forall a, deserialize_try a = None ->
        deserialize a = new /\ getLength (deserialize a) = 0)
  /\ (forall s,
        (forall l, In l (split LF s) -> exec reList l = None /\ exec reItem l = None) ->
        getLength (deserialize (Str s)) = 0)
  /\ getLength (deserialize (Str [])) = 0
  /\ getLength (deserialize (Str (lit "random prose" ++ LF :: lit "with no bullets"))) = 0.
Proof.
  split; [|split; [|split; [|split]]].
  - intros s. unfold deserialize, deserialize_try. rewrite forEach_fold. eauto.
  - intros a H. unfold deserialize. now rewrite H.
  - intros s H. rewrite deserialize_fold.
    assert (G : forall lines model,
               (forall l, In l lines -> exec reList l = None /\ exec reItem l = None) ->
               fold_left parse_line lines model = model).
    { induction lines as [|l lines IH]; intros model Hl; simpl; [reflexivity|].
      assert (E : parse_line model l = model).
      { destruct (Hl l (or_introl eq_refl)) as [E1 E2].
        rewrite exec_reList in E1. rewrite exec_reItem in E2. unfold parse_line.
        destruct (list_line l); [discriminate|]. now destruct (item_line l). }
      rewrite E. apply IH. intros l' Hl'. apply Hl. now right. }
    now rewrite G.
  - reflexivity.
  - vm_compute. reflexivity.
Qed.

Lemma deserialize_no_exception_witness :
  (deserialize Undefined = new /\ getLength (deserialize Undefined) = 0)
  /\ getLength (deserialize (Str (lit "prose"))) = 0.
Proof.
  split.
  - apply (proj1 (proj2 deserialize_no_exception) Undefined). reflexivity.
  - apply (proj1 (proj2 (proj2 deserialize_no_exception)) (lit "prose")).
    intros l [<- | []]. vm_compute. split; reflexivity.
Defined.

(** C9. Every item of a board that [deserialize] returns has an importance
    between 0 and 3; an item text with four markers on each side gives
    importance 3. *)
Theorem importance_in_range :
  (forall a l i,
      In l (lists (deserialize a)) -> In i (KanbanModelList.items l) ->
      0 <= KanbanModelItem.importance i <= 3)
  /\ deserialize (Str (lit "* L" ++ LF :: lit "  * ****text****"))
     = make [KanbanModelList.make (lit "L") [KanbanModelItem.new (lit "text") 3]].
Proof.
  split; [|vm_compute; reflexivity].
  intros a l i Hl Hi. pose proof (deserialize_parsed a) as H.
  rewrite Forall_forall in H. destruct (H l Hl) as (_ & _ & Hp).
  rewrite Forall_forall in Hp. destruct (Hp i Hi) as (_ & _ & _ & Hk & _). lia.
Qed.

Lemma importance_in_range_witness :
  0 <= KanbanModelItem.importance (KanbanModelItem.new (lit "Call mom") 2) <= 3.
Proof.
  apply (proj1 importance_in_range
           (Str (lit "* Todo" ++ LF :: lit "  * **Call mom**"))
           (KanbanModelList.make (lit "Todo") [KanbanModelItem.new (lit "Call mom") 2])
           (KanbanModelItem.new (lit "Call mom") 2)).
  - vm_compute. left. reflexivity.
  - simpl. left. reflexivity.
Defined.

(** C3. On an item line that the parser accepts, [reText] takes the item
    text apart into a left run of markers, a middle and a right run of
    markers: the left run is the longest one and the middle the shortest one
    that leaves only markers.  The item added to the last list has the
    middle as its name and the least of 3 and the two run lengths as its
    importance.  So [**text*] has importance 1, and runs that mix [*] and [_]
    count by their length. *)
Theorem item_text_decomposition :
  (forall model l matchItem,
      exec reItem l = Some matchItem -> getLength model <> 0 ->
      exists matchText,
        exec reText (group 1 matchItem) = Some matchText
        /\ group 1 matchItem = group 1 matchText ++ group 2 matchText ++ group 3 matchText
        /\ forallb cls_marker (group 1 matchText) = true
        /\ forallb cls_marker (group 3 matchText) = true
        /\ starts_with cls_marker (group 2 matchText ++ group 3 matchText) = false
        /\ ends_with cls_marker (group 2 matchText) = false
        /\ forEach_line model l
           = Some (make (update_at (getLength model - 1)
                           (KanbanModelList.addItem (group 2 matchText)
                              (Nat.min 3 (Nat.min (length (group 1 matchText))
                                                  (length (group 3 matchText)))))
                           (lists model))))
  /\ deserialize (Str (lit "* L" ++ LF :: lit "  * **text*"))
     = make [KanbanModelList.make (lit "L") [KanbanModelItem.new (lit "text") 1]]
  /\ deserialize (Str (lit "* L" ++ LF :: lit "  * _*text*_"))
     = make [KanbanModelList.make (lit "L") [KanbanModelItem.new (lit "text") 2]].
Proof.
  split; [|split; vm_compute; reflexivity].
  intros model l matchItem E Hlen. rewrite exec_reItem in E.
  destruct (item_line l) as [text|] eqn:I; [|discriminate].
  injection E as <-. unfold group at 1 2. cbn [caps assoc Nat.eqb].
  pose proof (item_line_dot _ I) as Hd.
  exists (MState [] [(3, text_right text); (2, text_middle text); (1, text_left text)]).
  unfold group. cbn [caps assoc Nat.eqb]. repeat split.
  - now apply exec_reText.
  - symmetry. apply text_parts.
  - apply takeWhile_all.
  - apply trailing_all.
  - unfold text_middle, text_right. rewrite before_trailing_app. apply starts_with_dropWhile.
  - apply ends_with_before_trailing.
  - rewrite forEach_line_parse. unfold parse_line.
    rewrite (item_line_not_list _ I), I.
    now rewrite (proj2 (Nat.eqb_neq _ _) Hlen).
Qed.

Lemma item_text_decomposition_witness :
  exists matchText,
    exec reText (lit "**text*") = Some matchText
    /\ group 2 matchText = lit "text"
    /\ Nat.min 3 (Nat.min (length (group 1 matchText)) (length (group 3 matchText))) = 1.
Proof.
  destruct (proj1 item_text_decomposition
              (make [KanbanModelList.new (lit "L")]) (lit "  * **text*")
              (MState [] [(1, lit "**text*")]))
    as (matchText & E & _); [vm_compute; reflexivity | discriminate |].
  exists matchText. split; [exact E|].
  vm_compute in E. injection E as <-. split; reflexivity.
Defined.



(** ** Printing *)

Lemma join_cons_concat (sep x : str) (l : list str) :
  join sep (x :: l) = x ++ concat (map (fun y => sep ++ y) l).
Proof.
  revert x. induction l as [|y l IH]; intros x.
  - simpl. now rewrite app_nil_r.
  - rewrite join_cons by discriminate. rewrite IH.
    cbn [map concat]. now rewrite <- app_assoc.
Qed.

Lemma toMarkdown_text (l : KanbanModelList.t) :
  KanbanModelList.toMarkdown l = spec_block_text l.
Proof.
  unfold KanbanModelList.toMarkdown, spec_block_text.
  rewrite join_cons_concat, map_map, <- app_assoc. reflexivity.
Qed.

Lemma serialize_text (b : t) : serialize b = spec_board_text b.
Proof.
  unfold serialize, spec_board_text. destruct (lists b) as [|l ls]; [reflexivity|].
  cbn [map]. rewrite join_cons_concat, map_map, toMarkdown_text. f_equal. f_equal.
  apply map_ext. intros l'. now rewrite toMarkdown_text.
Qed.

(** A separator ends a line: the lines of two texts put together with a
    separator are the lines of the first, then the lines of the second. *)
Lemma split_app_sep (sep : code) (a b : str) :
  split sep (a ++ sep :: b) = split sep a ++ split sep b.
Proof.
  induction a as [|c a IH]; simpl.
  - unfold code_eqb. now rewrite N.eqb_refl.
  - destruct (code_eqb c sep); [now rewrite IH|].
    rewrite IH. destruct (split sep a) as [|h t] eqn:E; [|reflexivity].
    destruct a as [|d a]; simpl in E; [discriminate|].
    destruct (code_eqb d sep); [discriminate|]. destruct (split sep a); discriminate.
Qed.

Lemma split_join_lines (sep : code) (ls : list str) :
  ls <> [] -> split sep (join [sep] ls) = flat_map (split sep) ls.
Proof.
  induction ls as [|l ls IH]; [congruence|]. intros _.
  destruct ls as [|l' ls].
  - simpl. now rewrite app_nil_r.
  - rewrite join_cons by discriminate.
    change ([sep] ++ join [sep] (l' :: ls)) with (sep :: join [sep] (l' :: ls)).
    rewrite split_app_sep, IH by discriminate. reflexivity.
Qed.

Lemma board_lines_not_nil (b : t) : lists b <> [] -> board_lines b <> [].
Proof.
  unfold board_lines. destruct (lists b) as [|l ls]; [congruence|]. discriminate.
Qed.

Lemma board_lines_single (b : t) :
  single_line_names b -> Forall (fun line => ~ In LF line) (board_lines b).
Proof.
  intros H. apply Forall_forall. intros line Hl. unfold board_lines in Hl.
  apply in_flat_map in Hl. destruct Hl as (l & Hin & Hl).
  destruct (H l Hin) as [Hn Hi]. destruct Hl as [<- | Hl].
  - intros F. apply in_app_or in F. destruct F as [F | F]; [|now apply Hn].
    vm_compute in F. repeat (destruct F as [F | F]; [discriminate|]). exact F.
  - apply in_map_iff in Hl. destruct Hl as (i & <- & Hii).
    intros F. apply in_app_or in F. destruct F as [F | F].
    + vm_compute in F. repeat (destruct F as [F | F]; [discriminate|]). exact F.
    + unfold item_markdown in F. apply in_app_or in F. destruct F as [F | F].
      * apply repeat_spec in F. discriminate.
      * apply in_app_or in F. destruct F as [F | F]; [now apply (Hi i Hii)|].
        apply repeat_spec in F. discriminate.
Qed.

Lemma board_lines_not_blank (b : t) : ~ In [] (board_lines b).
Proof.
  unfold board_lines. intros H. apply in_flat_map in H.
  destruct H as (l & _ & [H | H]); [discriminate|].
  apply in_map_iff in H. destruct H as (i & H & _). discriminate.
Qed.

(** C5. The text that [serialize] returns is, for every board, the text of
    the first list followed, for each further list, by one newline and the
    text of that list, in the order of the lists; the text of a list is
    [* name] followed, for each item in order, by one newline and [  * ] and
    the item, which is its name between [importance] stars on each side.
    The lines of the returned text are the lines of these list and item
    lines, one after the other: joining brings in no blank line.  When no
    name holds a newline, the lines of the returned text are exactly the list
    and item lines, and none of them is blank. *)
Theorem serialize_markdown :
  (forall b, serialize b = spec_board_text b)
  /\ (forall l, KanbanModelList.toMarkdown l = spec_block_text l)
  /\ (forall b,
        lists b <> [] ->
        split LF (serialize b) = flat_map (split LF) (board_lines b))
  /\ (forall b,
        lists b <> [] -> single_line_names b ->
        split LF (serialize b) = board_lines b
        /\ ~ In [] (split LF (serialize b)))
  /\ serialize
       (make [KanbanModelList.make (lit "Todo")
                [KanbanModelItem.new (lit "Buy milk") 0;
                 KanbanModelItem.new (lit "Call mom") 2];
              KanbanModelList.make (lit "Done") []])
     = lit "* Todo" ++ LF :: lit "  * Buy milk" ++ LF :: lit "  * **Call mom**"
       ++ LF :: lit "* Done".
Proof.
  split; [exact serialize_text|]. split; [exact toMarkdown_text|].
  split; [|split; [|vm_compute; reflexivity]].
  - intros b H. rewrite serialize_lines. apply split_join_lines.
    now apply board_lines_not_nil.
  - intros b H Hs.
    assert (E : split LF (serialize b) = board_lines b).
    { rewrite serialize_lines, split_join by now apply board_lines_single.
      destruct (board_lines b) eqn:B; [|reflexivity].
      now apply board_lines_not_nil in B. }
    split; [exact E|]. rewrite E. apply board_lines_not_blank.
Qed.

Lemma serialize_markdown_witness :
  split LF
    (serialize (make [KanbanModelList.make (lit "A") [KanbanModelItem.new (lit "x") 1];
                      KanbanModelList.make (lit "B") []]))
  = [lit "* A"; lit "  * *x*"; lit "* B"]
  /\ ~ In []
       (split LF
          (serialize (make [KanbanModelList.make (lit "A") [KanbanModelItem.new (lit "x") 1];
                            KanbanModelList.make (lit "B") []]))).
Proof.
  apply (proj1 (proj2 (proj2 (proj2 serialize_markdown)))
           (make [KanbanModelList.make (lit "A") [KanbanModelItem.new (lit "x") 1];
                  KanbanModelList.make (lit "B") []])).
  - discriminate.
  - intros l [<- | [<- | []]]; (split; [vm_compute; intuition discriminate|]).
    + intros i [<- | []]. vm_compute. intuition discriminate.
    + intros i [].
Defined.

(** ** Equality *)

(** C7. [equals] holds exactly of the boards with the same lists in the same
    order, each with the same name and the same items in the same order,
    each with the same name and importance.  Two different lists in swapped
    order make boards that are not equal. *)
Theorem equals_structural :
  (forall a b : t, equals a b = true <-> a = b)
  /\ (forall X Y : KanbanModelList.t, X <> Y -> equals (make [X; Y]) (make [Y; X]) = false).
Proof.
  split; [exact equals_eq|].
  intros X Y H. destruct (equals (make [X; Y]) (make [Y; X])) eqn:E; [|reflexivity].
  apply equals_eq in E. injection E as E _. now elim H.
Qed.

Lemma equals_structural_witness :
  equals (make [KanbanModelList.new (lit "X"); KanbanModelList.new (lit "Y")])
         (make [KanbanModelList.new (lit "Y"); KanbanModelList.new (lit "X")]) = false.
Proof.
  apply (proj2 equals_structural (KanbanModelList.new (lit "X")) (KanbanModelList.new (lit "Y"))).
  discriminate.
Defined.

(** ** Moving an item *)

Lemma nth_error_replace_nth (A : Type) (i : nat) (x y : A) (a : list A) :
  nth_error a i = Some x -> nth_error (replace_nth i y a) i = Some y.
Proof.
  unfold replace_nth. revert i.
  induction a as [|z a IH]; intros [|i]; simpl; try discriminate; auto.
Qed.

Lemma replace_nth_twice (A : Type) (i : nat) (y z : A) (a : list A) :
  replace_nth i z (replace_nth i y a) = replace_nth i z a.
Proof.
  unfold replace_nth. revert i.
  induction a as [|w a IH]; intros [|i]; simpl; auto. now rewrite IH.
Qed.

Lemma moveItem_in_range (b : t) (fl fi tl ti : nat)
    (src dst : KanbanModelList.t) (item : KanbanModelItem.t) :
  nth_error (lists b) fl = Some src ->
  nth_error (KanbanModelList.items src) fi = Some item ->
  nth_error
    (replace_nth fl
       (KanbanModelList.make (KanbanModelList.name src)
          (remove_nth fi (KanbanModelList.items src)))
       (lists b)) tl = Some dst ->
  ti <= length (KanbanModelList.items dst) ->
  moveItem (Z.of_nat fl) (Z.of_nat fi) (Z.of_nat tl) (Z.of_nat ti) b
  = Normal
      (make
         (replace_nth tl
            (KanbanModelList.make (KanbanModelList.name dst)
               (insert_nth ti item (KanbanModelList.items dst)))
            (replace_nth fl
               (KanbanModelList.make (KanbanModelList.name src)
                  (remove_nth fi (KanbanModelList.items src)))
               (lists b)))).
Proof.
  intros Hsrc Hitem Hdst Hti. unfold moveItem, getListAt, KanbanModelList.getItemAt.
  rewrite array_get_nat, Hsrc. cbv zeta. cbn [lists]. rewrite !Nat2Z.id.
  rewrite !array_get_nat, Hitem.
  rewrite (update_at_replace _ _ _ Hsrc). unfold KanbanModelList.removeItemAt at 1 2.
  rewrite splice_delete1_nat
    by (apply Nat.lt_le_incl, nth_error_Some; congruence).
  rewrite Hdst, (update_at_replace _ _ _ Hdst). unfold KanbanModelList.insertItem.
  now rewrite splice_insert_nat by exact Hti.
Qed.

(** C2. With indices in range, [moveItem] takes the item at [fromItemIndex]
    out of the source list and puts this item in at [toItemIndex] of the
    destination list, as it is after the removal: when the two lists are the
    same, [toItemIndex] counts in the list without the item.  On the list
    [A, B, C], [moveItem(0,0,0,2)] gives [B, C, A]; with the lists [A] and
    [], [moveItem(0,0,1,0)] gives [] and [A]. *)
Theorem moveItem_remove_then_insert :
  (forall b fl fi tl ti src dst item,
      nth_error (lists b) fl = Some src ->
      nth_error (KanbanModelList.items src) fi = Some item ->
      nth_error
        (replace_nth fl
           (KanbanModelList.make (KanbanModelList.name src)
              (remove_nth fi (KanbanModelList.items src)))
           (lists b)) tl = Some dst ->
      ti <= length (KanbanModelList.items dst) ->
      moveItem (Z.of_nat fl) (Z.of_nat fi) (Z.of_nat tl) (Z.of_nat ti) b
      = Normal
          (make
             (replace_nth tl
                (KanbanModelList.make (KanbanModelList.name dst)
                   (insert_nth ti item (KanbanModelList.items dst)))
                (replace_nth fl
                   (KanbanModelList.make (KanbanModelList.name src)
                      (remove_nth fi (KanbanModelList.items src)))
                   (lists b)))))
  /\ (forall b fl fi ti src item,
        nth_error (lists b) fl = Some src ->
        nth_error (KanbanModelList.items src) fi = Some item ->
        ti <= length (remove_nth fi (KanbanModelList.items src)) ->
        moveItem (Z.of_nat fl) (Z.of_nat fi) (Z.of_nat fl) (Z.of_nat ti) b
        = Normal
            (make
               (replace_nth fl
                  (KanbanModelList.make (KanbanModelList.name src)
                     (insert_nth ti item (remove_nth fi (KanbanModelList.items src))))
                  (lists b))))
  /\ (forall n A B C,
        moveItem 0 0 0 2 (make [KanbanModelList.make n [A; B; C]])
        = Normal (make [KanbanModelList.make n [B; C; A]]))
  /\ (forall n0 n1 A,
        moveItem 0 0 1 0 (make [KanbanModelList.make n0 [A]; KanbanModelList.make n1 []])
        = Normal (make [KanbanModelList.make n0 []; KanbanModelList.make n1 [A]])).
Proof.
  split; [exact moveItem_in_range|]. split; [|split; reflexivity].
  intros b fl fi ti src item Hsrc Hitem Hti.
  pose proof (nth_error_replace_nth fl
                (KanbanModelList.make (KanbanModelList.name src)
                   (remove_nth fi (KanbanModelList.items src)))
                (lists b) Hsrc) as Hdst.
  rewrite (@moveItem_in_range b fl fi fl ti _ _ _ Hsrc Hitem Hdst Hti).
  cbn [KanbanModelList.name KanbanModelList.items].
  now rewrite replace_nth_twice.
Qed.

Lemma moveItem_remove_then_insert_witness :
  moveItem 0 1 1 1
    (make [KanbanModelList.make (lit "a")
             [KanbanModelItem.new (lit "x") 0; KanbanModelItem.new (lit "y") 1];
           KanbanModelList.make (lit "b") [KanbanModelItem.new (lit "z") 2]])
  = Normal
      (make [KanbanModelList.make (lit "a") [KanbanModelItem.new (lit "x") 0];
             KanbanModelList.make (lit "b")
               [KanbanModelItem.new (lit "z") 2; KanbanModelItem.new (lit "y") 1]])
  /\ moveItem 0 0 0 1
       (make [KanbanModelList.make (lit "a")
                [KanbanModelItem.new (lit "x") 0; KanbanModelItem.new (lit "y") 1]])
     = Normal
         (make [KanbanModelList.make (lit "a")
                  [KanbanModelItem.new (lit "y") 1; KanbanModelItem.new (lit "x") 0]]).
Proof.
  split.
  - apply (proj1 moveItem_remove_then_insert
             (make [KanbanModelList.make (lit "a")
                      [KanbanModelItem.new (lit "x") 0; KanbanModelItem.new (lit "y") 1];
                    KanbanModelList.make (lit "b") [KanbanModelItem.new (lit "z") 2]])
             0 1 1 1
             (KanbanModelList.make (lit "a")
                [KanbanModelItem.new (lit "x") 0; KanbanModelItem.new (lit "y") 1])
             (KanbanModelList.make (lit "b") [KanbanModelItem.new (lit "z") 2])
             (KanbanModelItem.new (lit "y") 1));
      [reflexivity | reflexivity | reflexivity | simpl; lia].
  - apply (proj1 (proj2 moveItem_remove_then_insert)
             (make [KanbanModelList.make (lit "a")
                      [KanbanModelItem.new (lit "x") 0; KanbanModelItem.new (lit "y") 1]])
             0 0 1
             (KanbanModelList.make (lit "a")
                [KanbanModelItem.new (lit "x") 0; KanbanModelItem.new (lit "y") 1])
             (KanbanModelItem.new (lit "x") 0));
      [reflexivity | reflexivity | simpl; lia].
Defined.

Lemma perm_in_context (A : Type) (pre post X Y : list A) (y : A) :
  Permutation X (y :: Y) -> Permutation (pre ++ X ++ post) (y :: pre ++ Y ++ post).
Proof.
  intros H. rewrite H. symmetry. apply Permutation_middle.
Qed.

Lemma array_get_nth (A : Type) (i : Z) (a : list A) (x : A) :
  array_get i a = Some x ->
  (0 <= i < Z.of_nat (length a))%Z /\ nth_error a (Z.to_nat i) = Some x.
Proof.
  unfold array_get. destruct (Z.ltb_spec i 0) as [|Hi]; [discriminate|].
  intros Hx. split; [|exact Hx].
  assert (Z.to_nat i < length a) by (apply nth_error_Some; congruence). lia.
Qed.

(** C10. With the list indices and the source item index in range,
    [moveItem] returns, and the items of the board afterwards are the items
    before, each as often as before; so their number is the same. *)
Theorem moveItem_preserves_items :
  forall b fl fi tl ti src,
    getListAt fl b = Some src ->
    (0 <= fi < Z.of_nat (KanbanModelList.getLength src))%Z ->
    (0 <= tl < Z.of_nat (getLength b))%Z ->
    exists b',
      moveItem fl fi tl ti b = Normal b'
      /\ Permutation (all_items b) (all_items b')
      /\ length (all_items b') = length (all_items b).
Proof.
  intros b fl fi tl ti src Hsrc Hfi Htl.
  destruct (array_get_nth _ _ Hsrc) as [Hfl Hsrc'].
  destruct (array_get_some _ Hfi) as (item & Hitem' & Hitem).
  set (ls1 := update_at (Z.to_nat fl) (KanbanModelList.removeItemAt fi) (lists b)).
  assert (Htl1 : (0 <= tl < Z.of_nat (length ls1))%Z)
    by (unfold ls1; now rewrite length_update_at).
  destruct (array_get_some _ Htl1) as (dst & Hdst' & Hdst).
  exists (make (update_at (Z.to_nat tl) (KanbanModelList.insertItem ti item) ls1)).
  assert (P : Permutation (all_items b)
                (all_items (make (update_at (Z.to_nat tl)
                                    (KanbanModelList.insertItem ti item) ls1)))).
  { unfold all_items. cbn [lists].
    destruct (flat_update_at (KanbanModelList.insertItem ti item) _ _ Hdst') as [E1 ->].
    destruct (flat_update_at (KanbanModelList.removeItemAt fi) _ _ Hsrc') as [-> E2].
    fold ls1 in E2. cbn [KanbanModelList.insertItem KanbanModelList.items].
    rewrite (perm_in_context _ _ (splice_insert_perm ti item (KanbanModelList.items dst))).
    rewrite <- E1, E2. cbn [KanbanModelList.removeItemAt KanbanModelList.items].
    apply perm_in_context. symmetry.
    now apply splice_delete1_perm. }
  split; [|split; [exact P | symmetry; now apply Permutation_length]].
  unfold moveItem. rewrite Hsrc. cbv zeta. fold ls1.
  unfold getListAt, KanbanModelList.getItemAt. cbn [lists]. now rewrite Hdst, Hitem.
Qed.

Lemma moveItem_preserves_items_witness :
  exists b',
    moveItem 0 1 1 0
      (make [KanbanModelList.make (lit "a")
               [KanbanModelItem.new (lit "x") 0; KanbanModelItem.new (lit "y") 1];
             KanbanModelList.make (lit "b") [KanbanModelItem.new (lit "z") 2]])
    = Normal b'
    /\ Permutation
         [KanbanModelItem.new (lit "x") 0; KanbanModelItem.new (lit "y") 1;
          KanbanModelItem.new (lit "z") 2]
         (all_items b')
    /\ length (all_items b') = 3.
Proof.
  apply (@moveItem_preserves_items
           (make [KanbanModelList.make (lit "a")
                    [KanbanModelItem.new (lit "x") 0; KanbanModelItem.new (lit "y") 1];
                  KanbanModelList.make (lit "b") [KanbanModelItem.new (lit "z") 2]])
           0%Z 1%Z 1%Z 0%Z
           (KanbanModelList.make (lit "a")
              [KanbanModelItem.new (lit "x") 0; KanbanModelItem.new (lit "y") 1]));
    [reflexivity | simpl; lia | simpl; lia].
Defined.

(** ** Printing and parsing again *)

(** C1, as stated, fails: the item line [  * * foo] gives the item named
    [ foo], with the space, and importance 0; it prints as [  *  foo], which
    parses to the item named [foo]. *)
Lemma roundtrip_not_for_all_parsed :
  ~ (forall s,
        equals (deserialize (Str (serialize (deserialize (Str s))))) (deserialize (Str s))
        = true).
Proof.
  intros H. specialize (H (lit "* L" ++ LF :: lit "  * * foo")).
  vm_compute in H. discriminate.
Qed.

(** C1, amended. For a board that [deserialize] returns, printing it and
    parsing the result gives an equal board exactly when no item of
    importance 0 has a name that starts with white space. *)
Theorem roundtrip_normal_form :
  forall a,
    no_bare_space (deserialize a)
    <-> equals (deserialize (Str (serialize (deserialize a)))) (deserialize a) = true.
Proof.
  intros a. rewrite equals_eq, (deserialize_serialize _ (deserialize_parsed a)).
  symmetry. apply reparse_fixed_iff, deserialize_parsed.
Qed.

Lemma roundtrip_normal_form_witness :
  equals
    (deserialize (Str (serialize (deserialize
       (Str (lit "* Todo" ++ LF :: lit "  * Buy milk" ++ LF :: lit "  * **Call mom*"))))))
    (deserialize (Str (lit "* Todo" ++ LF :: lit "  * Buy milk" ++ LF :: lit "  * **Call mom*")))
  = true.
Proof.
  apply (proj1 (roundtrip_normal_form
                  (Str (lit "* Todo" ++ LF :: lit "  * Buy milk" ++ LF :: lit "  * **Call mom*")))).
  intros l i Hl Hi. vm_compute in Hl. destruct Hl as [<- | []].
  vm_compute in Hi. destruct Hi as [<- | [<- | []]]; reflexivity.
Defined.

(** * Further properties *)

(** ** Parsing *)

Lemma parsed_printable (l : KanbanModelList.t) : parsed_list l -> printable_list l.
Proof.
  intros (Hd & Hs & Hi). repeat split; auto.
  eapply Forall_impl; [|exact Hi]. now intros i (H & _).
Qed.

(** X1. In a board that [deserialize] returns, no name holds a line
    terminator, no list name starts with white space, no item name starts
    or ends with a marker, and an item of importance above 0 has a name
    that is not empty. *)
Theorem deserialize_names :
  forall a l,
    In l (lists (deserialize a)) ->
    forallb cls_dot (KanbanModelList.name l) = true
    /\ starts_with cls_space (KanbanModelList.name l) = false
    /\ forall i,
         In i (KanbanModelList.items l) ->
         forallb cls_dot (KanbanModelItem.name i) = true
         /\ starts_with cls_marker (KanbanModelItem.name i) = false
         /\ ends_with cls_marker (KanbanModelItem.name i) = false
         /\ (KanbanModelItem.importance i <> 0 -> KanbanModelItem.name i <> []).
Proof.
  intros a l Hl. pose proof (deserialize_parsed a) as H.
  rewrite Forall_forall in H. destruct (H l Hl) as (Hd & Hs & Hi).
  repeat split; auto; rewrite Forall_forall in Hi;
    destruct (Hi i H0) as (H1 & H2 & H3 & H4 & H5); auto.
Qed.

Lemma deserialize_names_witness :
  forallb cls_dot (lit "Todo") = true /\ starts_with cls_space (lit "Todo") = false.
Proof.
  destruct (@deserialize_names
              (Str (lit "* Todo" ++ LF :: lit "  * **Call mom**"))
              (KanbanModelList.make (lit "Todo") [KanbanModelItem.new (lit "Call mom") 2]))
    as (H1 & H2 & _); [vm_compute; left; reflexivity|].
  split; [exact H1 | exact H2].
Defined.

Lemma regex_test_lines (l : str) :
  regex_test reList l = false -> regex_test reItem l = false ->
  forall model, forEach_line model l = Some model.
Proof.
  unfold regex_test. intros H1 H2 model. unfold forEach_line.
  destruct (exec reList l); [discriminate|]. now destruct (exec reItem l).
Qed.

(** X2. The lines that neither [reList] nor [reItem] matches do nothing:
    the board is the one built from the other lines alone. *)
Theorem unmatched_lines_ignored :
  forall s,
    deserialize_try (Str s)
    = forEach (filter (fun l => regex_test reList l || regex_test reItem l) (split LF s)) new.
Proof.
  intros s. unfold deserialize_try. generalize new.
  induction (split LF s) as [|l lines IH]; intros model; [reflexivity|].
  cbn [filter]. destruct (regex_test reList l) eqn:E1; cbn [orb].
  - cbn [forEach]. destruct (forEach_line model l); [apply IH | reflexivity].
  - destruct (regex_test reItem l) eqn:E2.
    + cbn [forEach]. destruct (forEach_line model l); [apply IH | reflexivity].
    + cbn [forEach]. rewrite (regex_test_lines _ E1 E2). apply IH.
Qed.

Lemma parse_line_length (model : t) (l : str) :
  getLength (parse_line model l)
  = getLength model + (if regex_test reList l then 1 else 0).
Proof.
  unfold regex_test. rewrite exec_reList. unfold parse_line, getLength.
  destruct (list_line l) as [n|]; simpl.
  - unfold push. rewrite length_app. reflexivity.
  - destruct (item_line l); [|lia].
    destruct (Nat.eqb (length (lists model)) 0); [lia|]. simpl.
    rewrite length_update_at. lia.
Qed.

(** X3. The board has one list for each line that [reList] matches. *)
Theorem deserialize_list_count :
  forall s,
    getLength (deserialize (Str s)) = length (filter (regex_test reList) (split LF s)).
Proof.
  intros s. rewrite deserialize_fold.
  assert (G : forall lines model,
             getLength (fold_left parse_line lines model)
             = getLength model + length (filter (regex_test reList) lines)).
  { induction lines as [|l lines IH]; intros model; simpl; [lia|].
    rewrite IH, parse_line_length. destruct (regex_test reList l); simpl; lia. }
  now rewrite G.
Qed.

(** ** Printing and parsing again, for every board that prints line by line *)

Lemma item_markdown_printable (i : KanbanModelItem.t) :
  printable_item i -> forallb cls_dot (item_markdown i) = true.
Proof.
  unfold printable_item, item_markdown. intros Hd. rewrite !forallb_app, Hd.
  now rewrite !(@forallb_repeat cls_dot 42%N _ eq_refl).
Qed.

Lemma parse_item_printable (pre : list KanbanModelList.t) (l : KanbanModelList.t)
    (i : KanbanModelItem.t) :
  printable_item i ->
  parse_line (make (pre ++ [l])) (lit "  * " ++ item_markdown i)
  = make (pre ++ [KanbanModelList.make (KanbanModelList.name l)
                    (KanbanModelList.items l ++ [reparse_item i])]).
Proof.
  intros Hi. unfold parse_line.
  assert (E : item_line (lit "  * " ++ item_markdown i)
              = Some (dropWhile cls_space (item_markdown i))).
  { rewrite item_line_printed.
    now rewrite (forallb_dropWhile cls_space cls_dot _ (item_markdown_printable Hi)). }
  rewrite (item_line_not_list _ E), E.
  unfold getLength. cbn [lists]. rewrite update_at_last.
  replace (Nat.eqb (length (pre ++ [l])) 0) with false
    by (symmetry; apply Nat.eqb_neq; rewrite length_app; simpl; lia).
  reflexivity.
Qed.

Lemma fold_items_printable (pre : list KanbanModelList.t) (n : str)
    (its0 its : list KanbanModelItem.t) :
  Forall printable_item its ->
  fold_left parse_line (map (fun i => lit "  * " ++ item_markdown i) its)
    (make (pre ++ [KanbanModelList.make n its0]))
  = make (pre ++ [KanbanModelList.make n (its0 ++ map reparse_item its)]).
Proof.
  intros H. revert its0.
  induction H as [|i its Hi H IH]; intros its0; cbn [map fold_left].
  - now rewrite app_nil_r.
  - rewrite parse_item_printable by exact Hi.
    cbn [KanbanModelList.name KanbanModelList.items].
    rewrite IH. now rewrite <- app_assoc.
Qed.

Lemma fold_lists_printable (acc ls : list KanbanModelList.t) :
  Forall printable_list ls ->
  fold_left parse_line (flat_map list_block ls) (make acc)
  = make (acc ++ map reparse_list ls).
Proof.
  intros H. revert acc. induction H as [|l ls Hl H IH]; intros acc; cbn [flat_map fold_left map].
  - now rewrite app_nil_r.
  - rewrite fold_left_app.
    change (list_block l) with
      ((lit "* " ++ KanbanModelList.name l)
       :: map (fun i => lit "  * " ++ item_markdown i) (KanbanModelList.items l)).
    cbn [fold_left]. destruct Hl as (Hd & Hs & Hi).
    assert (E : parse_line (make acc) (lit "* " ++ KanbanModelList.name l)
                = addList (KanbanModelList.name l) (make acc)).
    { unfold parse_line. now rewrite list_line_printed, (dropWhile_none _ _ Hs), Hd. }
    rewrite E. unfold addList, push, KanbanModelList.new.
    cbn [lists]. rewrite fold_items_printable by exact Hi.
    rewrite IH. now rewrite <- app_assoc.
Qed.

Lemma printable_no_LF (b : t) :
  Forall printable_list (lists b) -> Forall (fun l => ~ In LF l) (board_lines b).
Proof.
  intros H. apply Forall_forall. intros x Hx. apply dot_no_LF.
  unfold board_lines in Hx. apply in_flat_map in Hx. destruct Hx as (l & Hl & Hx).
  rewrite Forall_forall in H. destruct (H _ Hl) as (Hd & _ & Hi).
  destruct Hx as [<- | Hx].
  - rewrite forallb_app. now rewrite Hd.
  - apply in_map_iff in Hx. destruct Hx as (i & <- & Hin).
    rewrite Forall_forall in Hi. rewrite forallb_app.
    now rewrite (item_markdown_printable (Hi _ Hin)).
Qed.

Lemma printable_round_trip :
  forall b,
    Forall printable_list (lists b) ->
    deserialize (Str (serialize b)) = make (map reparse_list (lists b)).
Proof.
  intros b H. rewrite deserialize_fold, serialize_lines.
  rewrite split_join by now apply printable_no_LF.
  destruct (board_lines b) as [|x xs] eqn:E.
  - destruct b as [[|l ls]]; [reflexivity | discriminate].
  - rewrite <- E. unfold board_lines, new. now rewrite (fold_lists_printable [] H).
Qed.

(** X4. A board whose names hold no line terminator and whose list names do
    not start with white space is read back from its printed form with the
    same lists, each item being the item read from its printed text: the
    white space at the start dropped, then the name between the marker runs,
    with the least of 3 and the two run lengths as importance. *)
Theorem print_then_parse :
  forall b,
    Forall printable_list (lists b) ->
    deserialize (Str (serialize b)) = make (map reparse_list (lists b)).
Proof. exact printable_round_trip. Qed.

Lemma print_then_parse_witness :
  deserialize
    (Str (serialize (make [KanbanModelList.make (lit "L")
                             [KanbanModelItem.new (lit "**x**") 0]])))
  = make [KanbanModelList.make (lit "L") [KanbanModelItem.new (lit "x") 2]].
Proof.
  apply (print_then_parse
           (make [KanbanModelList.make (lit "L") [KanbanModelItem.new (lit "**x**") 0]])).
  repeat constructor.
Defined.

(** X5. Such a board is read back from its printed form with the same list
    names in the same order and the same number of items in each list. *)
Theorem print_then_parse_shape :
  forall b,
    Forall printable_list (lists b) ->
    map KanbanModelList.name (lists (deserialize (Str (serialize b))))
    = map KanbanModelList.name (lists b)
    /\ map KanbanModelList.getLength (lists (deserialize (Str (serialize b))))
       = map KanbanModelList.getLength (lists b).
Proof.
  intros b H. rewrite (printable_round_trip b H). cbn [lists]. rewrite !map_map. split.
  - reflexivity.
  - apply map_ext. intros l. unfold KanbanModelList.getLength, reparse_list.
    cbn [KanbanModelList.items]. apply length_map.
Qed.

Lemma print_then_parse_shape_witness :
  map KanbanModelList.name
    (lists (deserialize
       (Str (serialize (make [KanbanModelList.make (lit "L")
                                [KanbanModelItem.new (lit " a") 0]])))))
  = [lit "L"].
Proof.
  apply (proj1 (print_then_parse_shape
                  (make [KanbanModelList.make (lit "L") [KanbanModelItem.new (lit " a") 0]])
                  ltac:(repeat constructor))).
Defined.

(** ** Moving items and lists *)

Section PositionFacts.
Variable A : Type.

Lemma remove_insert_nth (i : nat) (x : A) (l : list A) :
  i <= length l -> remove_nth i (insert_nth i x l) = l.
Proof.
  unfold remove_nth, insert_nth. revert l.
  induction i as [|i IH]; intros l H; [reflexivity|].
  destruct l as [|y l]; simpl in *; [lia|]. f_equal. apply IH. lia.
Qed.

Lemma insert_remove_nth (i : nat) (x : A) (l : list A) :
  nth_error l i = Some x -> insert_nth i x (remove_nth i l) = l.
Proof.
  unfold remove_nth, insert_nth. revert l.
  induction i as [|i IH]; intros [|y l] H; simpl in *; try discriminate.
  - now injection H as ->.
  - f_equal. now apply IH.
Qed.

Lemma nth_error_insert_nth (i : nat) (x : A) (l : list A) :
  i <= length l -> nth_error (insert_nth i x l) i = Some x.
Proof.
  unfold insert_nth. revert l.
  induction i as [|i IH]; intros l H; [reflexivity|].
  destruct l as [|y l]; simpl in *; [lia|]. apply IH. lia.
Qed.

Lemma length_remove_nth (i : nat) (x : A) (l : list A) :
  nth_error l i = Some x -> S (length (remove_nth i l)) = length l.
Proof.
  unfold remove_nth. revert l.
  induction i as [|i IH]; intros [|y l] H; simpl in *; try discriminate.
  - reflexivity.
  - f_equal. now apply IH.
Qed.

Lemma length_remove_nth_le (i : nat) (l : list A) : length (remove_nth i l) <= length l.
Proof.
  unfold remove_nth. rewrite length_app, length_firstn, length_skipn. lia.
Qed.

Lemma replace_nth_same (i : nat) (x : A) (a : list A) :
  nth_error a i = Some x -> replace_nth i x a = a.
Proof.
  unfold replace_nth. revert i.
  induction a as [|y a IH]; intros [|i] H; simpl in *; try discriminate.
  - now injection H as ->.
  - f_equal. now apply IH.
Qed.

Lemma nth_error_replace_nth_other (i j : nat) (y : A) (a : list A) :
  i <> j -> nth_error (replace_nth i y a) j = nth_error a j.
Proof.
  unfold replace_nth. revert i j.
  induction a as [|z a IH]; intros [|i] [|j] H; simpl; try reflexivity; try congruence.
  apply IH. congruence.
Qed.

Lemma length_replace_nth (i : nat) (y : A) (a : list A) :
  length (replace_nth i y a) = length a.
Proof. apply length_update_at. Qed.

Lemma splice_insert_end (n : nat) (x : A) (a : list A) :
  length a <= n -> splice_insert (Z.of_nat n) x a = a ++ [x].
Proof.
  intros H. unfold splice_insert, splice_start.
  destruct (Z.ltb_spec (Z.of_nat n) 0); [lia|].
  rewrite Nat2Z.id, Nat.min_r by exact H. now rewrite firstn_all, skipn_all.
Qed.

Lemma array_get_update_at (f : A -> A) (i : Z) (j : nat) (a : list A) :
  array_get i a = None -> array_get i (update_at j f a) = None.
Proof.
  unfold array_get. destruct (Z.ltb_spec i 0); [reflexivity|].
  rewrite !nth_error_None. now rewrite length_update_at.
Qed.

Lemma map_update_at (B : Type) (g : A -> B) (f : A -> A) (i : nat) (a : list A) :
  (forall x, g (f x) = g x) -> map g (update_at i f a) = map g a.
Proof.
  intros H. revert i. induction a as [|y a IH]; intros [|i]; simpl; try reflexivity.
  - now rewrite H.
  - now rewrite IH.
Qed.
End PositionFacts.

(** [moveItem] with the two lists and the source item in place, for every
    destination index. *)
Lemma moveItem_normal (b : t) (fl fi tl : nat) (ti : Z)
    (src dst : KanbanModelList.t) (item : KanbanModelItem.t) :
  nth_error (lists b) fl = Some src ->
  nth_error (KanbanModelList.items src) fi = Some item ->
  nth_error
    (replace_nth fl
       (KanbanModelList.make (KanbanModelList.name src)
          (remove_nth fi (KanbanModelList.items src)))
       (lists b)) tl = Some dst ->
  moveItem (Z.of_nat fl) (Z.of_nat fi) (Z.of_nat tl) ti b
  = Normal
      (make
         (replace_nth tl (KanbanModelList.insertItem ti item dst)
            (replace_nth fl
               (KanbanModelList.make (KanbanModelList.name src)
                  (remove_nth fi (KanbanModelList.items src)))
               (lists b)))).
Proof.
  intros Hsrc Hitem Hdst. unfold moveItem, getListAt, KanbanModelList.getItemAt.
  rewrite array_get_nat, Hsrc. cbv zeta. cbn [lists]. rewrite !Nat2Z.id.
  rewrite !array_get_nat, Hitem.
  rewrite (update_at_replace _ _ _ Hsrc). unfold KanbanModelList.removeItemAt at 1 2.
  rewrite splice_delete1_nat
    by (apply Nat.lt_le_incl, nth_error_Some; congruence).
  now rewrite Hdst, (update_at_replace _ _ _ Hdst).
Qed.

Lemma moveItem_to_itself :
  forall b fl fi src item,
    nth_error (lists b) fl = Some src ->
    nth_error (KanbanModelList.items src) fi = Some item ->
    moveItem (Z.of_nat fl) (Z.of_nat fi) (Z.of_nat fl) (Z.of_nat fi) b = Normal b.
Proof.
  intros b fl fi src item Hsrc Hitem.
  pose proof (nth_error_replace_nth fl
                (KanbanModelList.make (KanbanModelList.name src)
                   (remove_nth fi (KanbanModelList.items src)))
                (lists b) Hsrc) as Hdst.
  rewrite (moveItem_normal b fl fi fl (Z.of_nat fi) Hsrc Hitem Hdst).
  unfold KanbanModelList.insertItem. cbn [KanbanModelList.name KanbanModelList.items].
  rewrite splice_insert_nat
    by (pose proof (length_remove_nth _ _ Hitem);
        assert (fi < length (KanbanModelList.items src))
          by (apply nth_error_Some; congruence); lia).
  rewrite (insert_remove_nth _ _ Hitem), replace_nth_twice.
  replace (KanbanModelList.make (KanbanModelList.name src) (KanbanModelList.items src))
    with src by now destruct src.
  rewrite (replace_nth_same _ _ Hsrc). now destruct b.
Qed.

(** X6. Moving an item to the place where it is leaves the board as it was. *)
Theorem moveItem_same_place :
  forall b fl fi src item,
    nth_error (lists b) fl = Some src ->
    nth_error (KanbanModelList.items src) fi = Some item ->
    moveItem (Z.of_nat fl) (Z.of_nat fi) (Z.of_nat fl) (Z.of_nat fi) b = Normal b.
Proof. exact moveItem_to_itself. Qed.

Lemma moveItem_same_place_witness :
  moveItem 0 1 0 1
    (make [KanbanModelList.make (lit "a")
             [KanbanModelItem.new (lit "x") 0; KanbanModelItem.new (lit "y") 1]])
  = Normal
      (make [KanbanModelList.make (lit "a")
               [KanbanModelItem.new (lit "x") 0; KanbanModelItem.new (lit "y") 1]]).
Proof.
  apply (@moveItem_same_place
           (make [KanbanModelList.make (lit "a")
                    [KanbanModelItem.new (lit "x") 0; KanbanModelItem.new (lit "y") 1]])
           0 1
           (KanbanModelList.make (lit "a")
              [KanbanModelItem.new (lit "x") 0; KanbanModelItem.new (lit "y") 1])
           (KanbanModelItem.new (lit "y") 1)); reflexivity.
Defined.

(** X7. A move with indices in range is undone by the move back: from the
    destination place to the source place. *)
Theorem moveItem_undo :
  forall b fl fi tl ti src dst item,
    nth_error (lists b) fl = Some src ->
    nth_error (KanbanModelList.items src) fi = Some item ->
    nth_error
      (replace_nth fl
         (KanbanModelList.make (KanbanModelList.name src)
            (remove_nth fi (KanbanModelList.items src)))
         (lists b)) tl = Some dst ->
    ti <= length (KanbanModelList.items dst) ->
    exists b',
      moveItem (Z.of_nat fl) (Z.of_nat fi) (Z.of_nat tl) (Z.of_nat ti) b = Normal b'
      /\ moveItem (Z.of_nat tl) (Z.of_nat ti) (Z.of_nat fl) (Z.of_nat fi) b' = Normal b.
Proof.
  intros b fl fi tl ti src dst item Hsrc Hitem Hdst Hti.
  set (src' := KanbanModelList.make (KanbanModelList.name src)
                 (remove_nth fi (KanbanModelList.items src))) in *.
  set (removed := replace_nth fl src' (lists b)) in *.
  set (dst' := KanbanModelList.make (KanbanModelList.name dst)
                 (insert_nth ti item (KanbanModelList.items dst))).
  exists (make (replace_nth tl dst' removed)). split.
  - now apply moveItem_in_range.
  - assert (H1 : nth_error (lists (make (replace_nth tl dst' removed))) tl = Some dst')
      by (cbn [lists]; eapply nth_error_replace_nth; exact Hdst).
    assert (H2 : nth_error (KanbanModelList.items dst') ti = Some item)
      by (now apply nth_error_insert_nth).
    assert (E1 : replace_nth tl
                   (KanbanModelList.make (KanbanModelList.name dst')
                      (remove_nth ti (KanbanModelList.items dst')))
                   (lists (make (replace_nth tl dst' removed))) = removed).
    { cbn [lists KanbanModelList.name KanbanModelList.items dst'].
      rewrite remove_insert_nth by exact Hti. rewrite replace_nth_twice.
      replace (KanbanModelList.make (KanbanModelList.name dst) (KanbanModelList.items dst))
        with dst by now destruct dst.
      now apply replace_nth_same. }
    assert (H3 : nth_error
                   (replace_nth tl
                      (KanbanModelList.make (KanbanModelList.name dst')
                         (remove_nth ti (KanbanModelList.items dst')))
                      (lists (make (replace_nth tl dst' removed)))) fl = Some src').
    { rewrite E1. unfold removed. eapply nth_error_replace_nth. exact Hsrc. }
    rewrite (moveItem_normal _ tl ti fl (Z.of_nat fi) H1 H2 H3), E1.
    unfold KanbanModelList.insertItem, removed.
    cbn [src' KanbanModelList.name KanbanModelList.items].
    rewrite splice_insert_nat
      by (pose proof (length_remove_nth _ _ Hitem);
          assert (fi < length (KanbanModelList.items src))
            by (apply nth_error_Some; congruence); lia).
    rewrite (insert_remove_nth _ _ Hitem), replace_nth_twice.
    replace (KanbanModelList.make (KanbanModelList.name src) (KanbanModelList.items src))
      with src by now destruct src.
    rewrite (replace_nth_same _ _ Hsrc). now destruct b.
Qed.

Lemma moveItem_undo_witness :
  exists b',
    moveItem 0 1 1 0
      (make [KanbanModelList.make (lit "a")
               [KanbanModelItem.new (lit "x") 0; KanbanModelItem.new (lit "y") 1];
             KanbanModelList.make (lit "b") [KanbanModelItem.new (lit "z") 2]])
    = Normal b'
    /\ moveItem 1 0 0 1 b'
       = Normal
           (make [KanbanModelList.make (lit "a")
                    [KanbanModelItem.new (lit "x") 0; KanbanModelItem.new (lit "y") 1];
                  KanbanModelList.make (lit "b") [KanbanModelItem.new (lit "z") 2]]).
Proof.
  apply (@moveItem_undo
           (make [KanbanModelList.make (lit "a")
                    [KanbanModelItem.new (lit "x") 0; KanbanModelItem.new (lit "y") 1];
                  KanbanModelList.make (lit "b") [KanbanModelItem.new (lit "z") 2]])
           0 1 1 0
           (KanbanModelList.make (lit "a")
              [KanbanModelItem.new (lit "x") 0; KanbanModelItem.new (lit "y") 1])
           (KanbanModelList.make (lit "b") [KanbanModelItem.new (lit "z") 2])
           (KanbanModelItem.new (lit "y") 1));
    [reflexivity | reflexivity | reflexivity | simpl; lia].
Defined.

(** X8. [moveItem] is not atomic: with the source in range and no list at
    [toListIndex] it throws after the removal, and the board it leaves has
    lost the item. *)
Theorem moveItem_destination_missing :
  forall b fl fi tl ti src item,
    nth_error (lists b) fl = Some src ->
    nth_error (KanbanModelList.items src) fi = Some item ->
    getListAt tl b = None ->
    moveItem (Z.of_nat fl) (Z.of_nat fi) tl ti b
    = TypeError
        (make (replace_nth fl
                 (KanbanModelList.make (KanbanModelList.name src)
                    (remove_nth fi (KanbanModelList.items src)))
                 (lists b)))
    /\ Permutation
         (item :: all_items
                    (make (replace_nth fl
                             (KanbanModelList.make (KanbanModelList.name src)
                                (remove_nth fi (KanbanModelList.items src)))
                             (lists b))))
         (all_items b).
Proof.
  intros b fl fi tl ti src item Hsrc Hitem Htl. split.
  - unfold moveItem. unfold getListAt at 1. rewrite array_get_nat, Hsrc. cbv zeta.
    unfold getListAt. cbn [lists]. rewrite (array_get_update_at _ _ _ _ Htl).
    rewrite Nat2Z.id, (update_at_replace _ _ _ Hsrc).
    unfold KanbanModelList.removeItemAt.
    now rewrite splice_delete1_nat
      by (apply Nat.lt_le_incl, nth_error_Some; congruence).
  - unfold all_items, replace_nth. cbn [lists].
    destruct (flat_update_at
                (fun _ => KanbanModelList.make (KanbanModelList.name src)
                            (remove_nth fi (KanbanModelList.items src))) _ _ Hsrc)
      as [-> ->].
    cbn [KanbanModelList.items]. symmetry. apply perm_in_context.
    unfold remove_nth. rewrite (nth_error_cut _ _ Hitem) at 1.
    symmetry. apply Permutation_middle.
Qed.

Lemma moveItem_destination_missing_witness :
  moveItem 0 0 5 0 (make [KanbanModelList.make (lit "a") [KanbanModelItem.new (lit "x") 0]])
  = TypeError (make [KanbanModelList.make (lit "a") []]).
Proof.
  apply (proj1 (@moveItem_destination_missing
                  (make [KanbanModelList.make (lit "a") [KanbanModelItem.new (lit "x") 0]])
                  0 0 5%Z 0%Z
                  (KanbanModelList.make (lit "a") [KanbanModelItem.new (lit "x") 0])
                  (KanbanModelItem.new (lit "x") 0)
                  eq_refl eq_refl eq_refl)).
Defined.

(** Whenever [moveItem] returns, the board has the items it had and the
    lists have the names they had. *)
Lemma moveItem_returns (b b' : t) (fl fi tl ti : Z) :
  moveItem fl fi tl ti b = Normal b' ->
  Permutation (all_items b) (all_items b')
  /\ map KanbanModelList.name (lists b') = map KanbanModelList.name (lists b).
Proof.
  unfold moveItem. destruct (getListAt fl b) as [src|] eqn:Hsrc; [|discriminate].
  cbv zeta.
  set (ls1 := update_at (Z.to_nat fl) (KanbanModelList.removeItemAt fi) (lists b)).
  destruct (getListAt tl (make ls1)) as [dst|] eqn:Hdst; [|discriminate].
  destruct (KanbanModelList.getItemAt fi src) as [item|] eqn:Hitem; [|discriminate].
  intros [= <-]. cbn [lists].
  destruct (array_get_nth _ _ Hsrc) as [Hfl Hsrc'].
  destruct (array_get_nth _ _ Hdst) as [Htl Hdst'].
  destruct (array_get_nth _ _ Hitem) as [Hfi Hitem'].
  cbn [lists] in *. split.
  - unfold all_items. cbn [lists].
    destruct (flat_update_at (KanbanModelList.insertItem ti item) _ _ Hdst') as [E1 ->].
    destruct (flat_update_at (KanbanModelList.removeItemAt fi) _ _ Hsrc') as [-> E2].
    fold ls1 in E2. cbn [KanbanModelList.insertItem KanbanModelList.items].
    rewrite (perm_in_context _ _ (splice_insert_perm ti item (KanbanModelList.items dst))).
    rewrite <- E1, E2. cbn [KanbanModelList.removeItemAt KanbanModelList.items].
    apply perm_in_context. symmetry.
    now apply splice_delete1_perm.
  - unfold ls1. now rewrite !map_update_at.
Qed.

(** X9. [handleMoveItem] always ends in a call of [onEdit] or in an
    exception; the board it prints for [onEdit] has the items of the parsed
    board, each as often as there, and the lists under their names in their
    order: a stale or wrong item id never makes the host lose or gain an
    item. *)
Theorem handleMoveItem_keeps_items :
  forall sourceId targetId data,
    handleMoveItem sourceId targetId data <> NoEdit
    /\ forall newData,
         handleMoveItem sourceId targetId data = OnEdit newData ->
         exists b',
           newData = serialize b'
           /\ Permutation (all_items (deserialize (Str data))) (all_items b')
           /\ map KanbanModelList.name (lists b')
              = map KanbanModelList.name (lists (deserialize (Str data))).
Proof.
  intros sourceId targetId data.
  assert (G : forall ti,
             updateKanban (moveItem (fst sourceId) (snd sourceId) (fst targetId) ti) data
             <> NoEdit
             /\ forall newData,
                  updateKanban (moveItem (fst sourceId) (snd sourceId) (fst targetId) ti) data
                  = OnEdit newData ->
                  exists b',
                    newData = serialize b'
                    /\ Permutation (all_items (deserialize (Str data))) (all_items b')
                    /\ map KanbanModelList.name (lists b')
                       = map KanbanModelList.name (lists (deserialize (Str data)))).
  { intros ti. unfold updateKanban.
    destruct (moveItem (fst sourceId) (snd sourceId) (fst targetId) ti
                (deserialize (Str data))) as [b'| |] eqn:E;
      (split; [discriminate|]); intros newData H; try discriminate.
    injection H as <-. exists b'. split; [reflexivity|]. now apply moveItem_returns in E. }
  unfold handleMoveItem. destruct (snd targetId <? 0)%Z; [|apply G].
  destruct (getListAt (fst targetId) (deserialize (Str data))); [apply G|].
  split; [discriminate|]. intros newData H. discriminate.
Qed.

Lemma handleMoveItem_keeps_items_witness :
  exists b',
    lit "* L" ++ LF :: lit "  * b" ++ LF :: lit "  * a" = serialize b'
    /\ Permutation
         (all_items (deserialize (Str (lit "* L" ++ LF :: lit "  * a" ++ LF :: lit "  * b"))))
         (all_items b')
    /\ map KanbanModelList.name (lists b')
       = map KanbanModelList.name
           (lists (deserialize (Str (lit "* L" ++ LF :: lit "  * a" ++ LF :: lit "  * b")))).
Proof.
  apply (proj2 (handleMoveItem_keeps_items (0, 0)%Z (0, 1)%Z
                  (lit "* L" ++ LF :: lit "  * a" ++ LF :: lit "  * b"))).
  vm_compute. reflexivity.
Defined.

(** X10. A card dropped on a list, outside its cards, goes to the end of
    that list; when the list is the one the card comes from, it becomes its
    last card. *)
Theorem drop_on_list_appends :
  forall data fl fi tl src dst item,
    nth_error (lists (deserialize (Str data))) fl = Some src ->
    nth_error (KanbanModelList.items src) fi = Some item ->
    nth_error
      (replace_nth fl
         (KanbanModelList.make (KanbanModelList.name src)
            (remove_nth fi (KanbanModelList.items src)))
         (lists (deserialize (Str data)))) tl = Some dst ->
    listCardTarget_drop false (Z.of_nat fl, Z.of_nat fi) (Z.of_nat tl) data
    = OnEdit
        (serialize
           (make
              (replace_nth tl
                 (KanbanModelList.make (KanbanModelList.name dst)
                    (KanbanModelList.items dst ++ [item]))
                 (replace_nth fl
                    (KanbanModelList.make (KanbanModelList.name src)
                       (remove_nth fi (KanbanModelList.items src)))
                    (lists (deserialize (Str data))))))).
Proof.
  intros data fl fi tl src dst item Hsrc Hitem Hdst.
  unfold listCardTarget_drop, handleMoveItem. cbn [fst snd].
  change (-1 <? 0)%Z with true. cbv iota.
  unfold getListAt at 1. rewrite array_get_nat.
  destruct (nth_error (lists (deserialize (Str data))) tl) as [l0|] eqn:Hl0.
  - unfold updateKanban.
    rewrite (moveItem_normal _ fl fi tl
               (Z.of_nat (KanbanModelList.getLength l0)) Hsrc Hitem Hdst).
    unfold KanbanModelList.insertItem. rewrite splice_insert_end; [reflexivity|].
    unfold KanbanModelList.getLength.
    destruct (Nat.eq_dec fl tl) as [<- | Hne].
    + rewrite (nth_error_replace_nth _ _ _ Hsrc) in Hdst. injection Hdst as <-.
      rewrite Hsrc in Hl0. injection Hl0 as <-.
      cbn [KanbanModelList.items]. apply length_remove_nth_le.
    + rewrite (nth_error_replace_nth_other _ _ Hne) in Hdst.
      rewrite Hdst in Hl0. now injection Hl0 as <-.
  - exfalso. apply nth_error_None in Hl0.
    assert (tl < length (lists (deserialize (Str data)))); [|lia].
    rewrite <- (length_replace_nth fl
                  (KanbanModelList.make (KanbanModelList.name src)
                     (remove_nth fi (KanbanModelList.items src)))).
    apply nth_error_Some. congruence.
Qed.

Lemma drop_on_list_appends_witness :
  listCardTarget_drop false (0, 0)%Z 0%Z (lit "* L" ++ LF :: lit "  * a" ++ LF :: lit "  * b")
  = OnEdit (lit "* L" ++ LF :: lit "  * b" ++ LF :: lit "  * a").
Proof.
  apply (@drop_on_list_appends
           (lit "* L" ++ LF :: lit "  * a" ++ LF :: lit "  * b") 0 0 0
           (KanbanModelList.make (lit "L")
              [KanbanModelItem.new (lit "a") 0; KanbanModelItem.new (lit "b") 0])
           (KanbanModelList.make (lit "L") [KanbanModelItem.new (lit "b") 0])
           (KanbanModelItem.new (lit "a") 0)); vm_compute; reflexivity.
Defined.

(** X11. With a list at [fromListIndex] and [toListIndex] in range,
    [moveList] takes the list out and puts it in at [toListIndex] of what is
    left; the board keeps exactly its lists; and moving a list to its own
    index changes nothing. *)
Theorem moveList_remove_then_insert :
  forall b i j l,
    nth_error (lists b) i = Some l ->
    j <= length (remove_nth i (lists b)) ->
    moveList (Z.of_nat i) (Z.of_nat j) b
    = Normal (make (insert_nth j l (remove_nth i (lists b))))
    /\ Permutation (lists b) (insert_nth j l (remove_nth i (lists b)))
    /\ moveList (Z.of_nat i) (Z.of_nat i) b = Normal b.
Proof.
  intros b i j l Hl Hj.
  assert (Hi : i <= length (lists b))
    by (apply Nat.lt_le_incl, nth_error_Some; congruence).
  assert (Hi' : i <= length (remove_nth i (lists b)))
    by (pose proof (length_remove_nth _ _ Hl);
        assert (i < length (lists b)) by (apply nth_error_Some; congruence); lia).
  assert (G : forall k, k <= length (remove_nth i (lists b)) ->
                moveList (Z.of_nat i) (Z.of_nat k) b
                = Normal (make (insert_nth k l (remove_nth i (lists b))))).
  { intros k Hk. unfold moveList, getListAt, insertList, removeListAt.
    rewrite array_get_nat, Hl. cbn [lists].
    rewrite splice_delete1_nat by exact Hi. now rewrite splice_insert_nat by exact Hk. }
  split; [now apply G|]. split.
  - unfold insert_nth. rewrite <- Permutation_middle, firstn_skipn.
    unfold remove_nth. rewrite (nth_error_cut _ _ Hl) at 1.
    symmetry. apply Permutation_middle.
  - rewrite (G i Hi'), (insert_remove_nth _ _ Hl). now destruct b.
Qed.

Lemma moveList_remove_then_insert_witness :
  moveList 0 1 (make [KanbanModelList.new (lit "a"); KanbanModelList.new (lit "b")])
  = Normal (make [KanbanModelList.new (lit "b"); KanbanModelList.new (lit "a")]).
Proof.
  apply (proj1 (@moveList_remove_then_insert
                  (make [KanbanModelList.new (lit "a"); KanbanModelList.new (lit "b")])
                  0 1 (KanbanModelList.new (lit "a")) eq_refl ltac:(simpl; lia))).
Defined.

(** ** The operations of a list *)

(** X12. An item put in at an index up to the length is found at this
    index, the list is one longer, and removing at this index gives the list
    back; [addItem] is [insertItem] at the length. *)
Theorem insertItem_lookup_remove :
  (forall l i x,
      i <= KanbanModelList.getLength l ->
      KanbanModelList.getItemAt (Z.of_nat i) (KanbanModelList.insertItem (Z.of_nat i) x l)
      = Some x
      /\ KanbanModelList.getLength (KanbanModelList.insertItem (Z.of_nat i) x l)
         = S (KanbanModelList.getLength l)
      /\ KanbanModelList.removeItemAt (Z.of_nat i) (KanbanModelList.insertItem (Z.of_nat i) x l)
         = l)
  /\ (forall l text importance,
        KanbanModelList.addItem text importance l
        = KanbanModelList.insertItem (Z.of_nat (KanbanModelList.getLength l))
            (KanbanModelItem.new text importance) l).
Proof.
  split.
  - intros [n its] i x Hi.
    unfold KanbanModelList.getItemAt, KanbanModelList.insertItem,
      KanbanModelList.removeItemAt, KanbanModelList.getLength in *.
    cbn [KanbanModelList.items KanbanModelList.name] in *.
    rewrite array_get_nat, (splice_insert_nat _ _ Hi).
    assert (Hlen : length (insert_nth i x its) = S (length its)).
    { unfold insert_nth. rewrite length_app. simpl.
      rewrite length_firstn, length_skipn. lia. }
    rewrite splice_delete1_nat by lia.
    rewrite (nth_error_insert_nth _ _ Hi), Hlen, (remove_insert_nth _ _ Hi). auto.
  - intros [n its] text importance.
    unfold KanbanModelList.addItem, KanbanModelList.insertItem, KanbanModelList.getLength, push.
    cbn [KanbanModelList.items KanbanModelList.name].
    now rewrite splice_insert_end.
Qed.

Lemma insertItem_lookup_remove_witness :
  KanbanModelList.getItemAt 1
    (KanbanModelList.insertItem 1 (KanbanModelItem.new (lit "y") 0)
       (KanbanModelList.make (lit "a") [KanbanModelItem.new (lit "x") 0]))
  = Some (KanbanModelItem.new (lit "y") 0).
Proof.
  apply (proj1 (proj1 insertItem_lookup_remove
                  (KanbanModelList.make (lit "a") [KanbanModelItem.new (lit "x") 0])
                  1 (KanbanModelItem.new (lit "y") 0)
                  ltac:(unfold KanbanModelList.getLength; simpl; lia))).
Defined.

(** X13. Removing at an index from the length on changes nothing, for items
    and for lists; removing at index -1 removes the last one. *)
Theorem remove_out_of_range :
  (forall l i, (Z.of_nat (KanbanModelList.getLength l) <= i)%Z ->
      KanbanModelList.removeItemAt i l = l)
  /\ (forall b i, (Z.of_nat (getLength b) <= i)%Z -> removeListAt i b = b)
  /\ (forall n its x,
        KanbanModelList.removeItemAt (-1) (KanbanModelList.make n (its ++ [x]))
        = KanbanModelList.make n its)
  /\ (forall ls l, removeListAt (-1) (make (ls ++ [l])) = make ls).
Proof.
  assert (far : forall (A : Type) (a : list A) (i : Z),
             (Z.of_nat (length a) <= i)%Z -> splice_delete1 i a = a).
  { intros A a i H. unfold splice_delete1, splice_start. cbv zeta.
    destruct (Z.ltb_spec i 0); [lia|]. rewrite Nat.min_r by lia.
    rewrite firstn_all. rewrite (skipn_all2 (n := S (length a))) by lia.
    apply app_nil_r. }
  assert (last : forall (A : Type) (a : list A) (x : A),
             splice_delete1 (-1) (a ++ [x]) = a).
  { intros A a x. unfold splice_delete1, splice_start. cbv zeta.
    change (-1 <? 0)%Z with true.
    cbv iota. rewrite length_app. simpl length.
    replace (Z.to_nat (Z.max (Z.of_nat (length a + 1) + -1) 0)) with (length a) by lia.
    rewrite (skipn_all2 (n := S (length a))) by (rewrite length_app; simpl; lia).
    rewrite firstn_app, Nat.sub_diag, firstn_all. simpl. now rewrite !app_nil_r. }
  split; [|split; [|split]].
  - intros [n its] i H. unfold KanbanModelList.removeItemAt. simpl in *. now rewrite far.
  - intros [ls] i H. unfold removeListAt. simpl in *. now rewrite far.
  - intros n its x. unfold KanbanModelList.removeItemAt. simpl. now rewrite last.
  - intros ls l. unfold removeListAt. simpl. now rewrite last.
Qed.

Lemma remove_out_of_range_witness :
  KanbanModelList.removeItemAt 3
    (KanbanModelList.make (lit "a") [KanbanModelItem.new (lit "x") 0])
  = KanbanModelList.make (lit "a") [KanbanModelItem.new (lit "x") 0]
  /\ removeListAt 1 (make [KanbanModelList.new (lit "a")])
     = make [KanbanModelList.new (lit "a")].
Proof.
  split.
  - apply (proj1 remove_out_of_range
             (KanbanModelList.make (lit "a") [KanbanModelItem.new (lit "x") 0]) 3%Z).
    simpl. lia.
  - apply (proj1 (proj2 remove_out_of_range) (make [KanbanModelList.new (lit "a")]) 1%Z).
    simpl. lia.
Defined.

(** X14. The clone of a board equals the board. *)
Theorem clone_equals :
  forall b, equals (clone b) b = true.
Proof.
  intros [ls]. apply equals_eq. unfold clone. cbn [lists]. f_equal.
  apply map_fixed. intros [n its] _. unfold KanbanModelList.clone.
  cbn [KanbanModelList.name KanbanModelList.items]. f_equal.
  apply map_fixed. now intros [m k] _.
Qed.

(** ** The component *)

Lemma str_eqb_refl (a : str) : str_eqb a a = true.
Proof. now apply str_eqb_eq. Qed.

(** X15. The component updates exactly when the old and the new text parse
    to different boards: the comparison of the texts is only a short cut. *)
Theorem shouldComponentUpdate_boards :
  forall data nextData,
    shouldComponentUpdate data nextData = true
    <-> deserialize (Str data) <> deserialize (Str nextData).
Proof.
  intros data nextData. unfold shouldComponentUpdate.
  destruct (str_eqb data nextData) eqn:E.
  - apply str_eqb_eq in E. subst. split; [discriminate | now intros H; elim H].
  - rewrite negb_true_iff, <- not_true_iff_false. now rewrite equals_eq.
Qed.

Lemma shouldComponentUpdate_boards_witness :
  shouldComponentUpdate (lit "* A") (lit "* B") = true.
Proof.
  apply (proj2 (shouldComponentUpdate_boards (lit "* A") (lit "* B"))).
  vm_compute. discriminate.
Defined.

Lemma deserialize_printable (a : argument) : Forall printable_list (lists (deserialize a)).
Proof.
  eapply Forall_impl; [|apply deserialize_parsed]. apply parsed_printable.
Qed.

(** X16. [handleAddList] does nothing on the empty text.  On a text without
    line terminator that does not start with white space, it hands over a
    text that parses to the lists of the printed old board followed by one
    new list of this name, without items. *)
Theorem handleAddList_appends :
  (forall data, handleAddList [] data = NoEdit)
  /\ (forall text data,
        text <> [] -> forallb cls_dot text = true -> starts_with cls_space text = false ->
        exists newData,
          handleAddList text data = OnEdit newData
          /\ lists (deserialize (Str newData))
             = lists (deserialize (Str (serialize (deserialize (Str data)))))
               ++ [KanbanModelList.new text]).
Proof.
  split; [reflexivity|].
  intros text data Hne Hd Hs. destruct text as [|c text]; [congruence|].
  exists (serialize (addList (c :: text) (deserialize (Str data)))). split; [reflexivity|].
  rewrite (printable_round_trip _ (deserialize_printable (Str data))).
  rewrite printable_round_trip.
  - unfold addList, push. cbn [lists]. now rewrite map_app.
  - unfold addList, push. cbn [lists]. apply Forall_app. split.
    + apply deserialize_printable.
    + constructor; [|constructor]. repeat split; auto.
Qed.

Lemma handleAddList_appends_witness :
  exists newData,
    handleAddList (lit "B") (lit "* A") = OnEdit newData
    /\ lists (deserialize (Str newData))
       = lists (deserialize (Str (serialize (deserialize (Str (lit "* A"))))))
         ++ [KanbanModelList.new (lit "B")].
Proof.
  apply (proj2 handleAddList_appends (lit "B") (lit "* A"));
    [discriminate | reflexivity | reflexivity].
Defined.

Lemma update_at_map_fixed (A : Type) (g f : A -> A) (i : nat) (a : list A) :
  (forall x, In x a -> g x = x) ->
  map g (update_at i f a) = update_at i (fun x => g (f x)) a.
Proof.
  revert i. induction a as [|y a IH]; intros [|i] H; simpl; try reflexivity.
  - f_equal. apply map_fixed. intros x Hx. apply H. now right.
  - rewrite (H y) by now left. f_equal. apply IH. intros x Hx. apply H. now right.
Qed.

Lemma reparse_list_fixed (l : KanbanModelList.t) :
  parsed_list l ->
  (forall i, In i (KanbanModelList.items l) -> bare_space_item i = false) ->
  reparse_list l = l.
Proof.
  intros (_ & _ & Hi) Hb. rewrite Forall_forall in Hi.
  unfold reparse_list. destruct l as [n its]. cbn [KanbanModelList.name KanbanModelList.items] in *.
  f_equal. apply map_fixed. intros i Hin. apply reparse_item_fixed; auto.
Qed.

(** X17. [handleAddItem] does nothing without a text box or on the empty
    text, and throws when there is no list at the index.  Otherwise the item
    is stored with the text as its name and read from there by the next
    parse: for a text without line terminator, and a board without an item
    that prints with white space at its start, the text handed over parses
    to the board with one more item at the end of the list, whose name is
    the text without its white space at the start and its marker runs, and
    whose importance is the least of 3 and the lengths of the two runs. *)
Theorem handleAddItem_appends :
  (forall index data, handleAddItem index None data = NoEdit)
  /\ (forall index data, handleAddItem index (Some []) data = NoEdit)
  /\ (forall index text data,
        text <> [] -> getListAt index (deserialize (Str data)) = None ->
        handleAddItem index (Some text) data = Throws)
  /\ (forall index text data l,
        text <> [] -> forallb cls_dot text = true ->
        no_bare_space (deserialize (Str data)) ->
        nth_error (lists (deserialize (Str data))) index = Some l ->
        exists newData,
          handleAddItem (Z.of_nat index) (Some text) data = OnEdit newData
          /\ lists (deserialize (Str newData))
             = replace_nth index
                 (KanbanModelList.make (KanbanModelList.name l)
                    (KanbanModelList.items l
                     ++ [KanbanModelItem.new (text_middle (dropWhile cls_space text))
                           (Nat.min 3
                              (Nat.min (length (text_left (dropWhile cls_space text)))
                                       (length (text_right (dropWhile cls_space text)))))]))
                 (lists (deserialize (Str data)))).
Proof.
  split; [reflexivity|]. split; [reflexivity|]. split.
  - intros index text data Hne H. destruct text as [|c text]; [congruence|].
    unfold handleAddItem, updateKanban. now rewrite H.
  - intros index text data l Hne Hd Hb Hl. destruct text as [|c text]; [congruence|].
    set (b := deserialize (Str data)) in *.
    exists (serialize (make (update_at index (KanbanModelList.addItem (c :: text) 0) (lists b)))).
    split.
    + unfold handleAddItem, updateKanban. fold b. unfold getListAt.
      now rewrite array_get_nat, Hl, Nat2Z.id.
    + pose proof (deserialize_parsed (Str data)) as Hp. fold b in Hp.
      rewrite Forall_forall in Hp.
      rewrite printable_round_trip.
      * cbn [lists]. rewrite update_at_map_fixed.
        -- rewrite (update_at_replace _ _ _ Hl). f_equal.
           unfold reparse_list, KanbanModelList.addItem, push.
           cbn [KanbanModelList.name KanbanModelList.items].
           rewrite map_app. f_equal. f_equal.
           ++ apply map_fixed. intros i Hi.
              destruct (Hp l (nth_error_In _ _ Hl)) as (_ & _ & Hil).
              rewrite Forall_forall in Hil.
              apply reparse_item_fixed; [now apply Hil|].
              apply (Hb l i); [apply (nth_error_In _ _ Hl) | exact Hi].
           ++ unfold reparse_item, item_markdown.
              cbn [map KanbanModelItem.name KanbanModelItem.importance repeat app].
              now rewrite app_nil_r.
        -- intros x Hx. apply reparse_list_fixed; [now apply Hp|].
           intros i Hi. exact (Hb x i Hx Hi).
      * cbn [lists]. apply Forall_update_at; [|apply deserialize_printable].
        intros x (H1 & H2 & H3). repeat split; auto.
        unfold KanbanModelList.addItem, push. cbn [KanbanModelList.items].
        apply Forall_app. split; [exact H3|]. constructor; [exact Hd | constructor].
Qed.

Lemma handleAddItem_appends_witness :
  handleAddItem 3 (Some (lit "x")) (lit "* A") = Throws
  /\ exists newData,
       handleAddItem 0 (Some (lit "**x**")) (lit "* A") = OnEdit newData
       /\ lists (deserialize (Str newData))
          = [KanbanModelList.make (lit "A") [KanbanModelItem.new (lit "x") 2]].
Proof.
  destruct handleAddItem_appends as (_ & _ & H3 & H4). split.
  - apply H3; [discriminate | reflexivity].
  - apply (H4 0 (lit "**x**") (lit "* A") (KanbanModelList.new (lit "A")));
      [discriminate | reflexivity | | reflexivity].
    intros l i Hl Hi. vm_compute in Hl. destruct Hl as [<- | []]. destruct Hi.
Defined.

(** ** Rendering the text of a card *)

Lemma repeat_greedy_sound (p : code -> bool) (s : str) (cs : list (nat * str))
    (k : cont) (y : mstate) :
  repeat_greedy p s cs k = Some y ->
  exists w s', s = w ++ s' /\ forallb p w = true /\ k (MState s' cs) = Some y.
Proof.
  induction s as [|c s IH]; simpl.
  - intros H. now exists [], [].
  - destruct (p c) eqn:E.
    + destruct (repeat_greedy p s cs k) as [z|] eqn:R.
      * intros [= <-]. destruct (IH eq_refl) as (w & s' & -> & Hw & Hk).
        exists (c :: w), s'. simpl. now rewrite E, Hw.
      * intros H. now exists [], (c :: s).
    + intros H. now exists [], (c :: s).
Qed.

(** A match of [regexLink] at the start of [s]. *)
Lemma regexLink_match (input s : str) (y : mstate) :
  matcher input regexLink (MState s []) (fun y => Some y) = Some y ->
  exists t h,
    s = 91%N :: t ++ 93%N :: 40%N :: h ++ 41%N :: rest y
    /\ caps y = [(2, h); (1, t)]
    /\ t <> [] /\ h <> []
    /\ forallb (fun c => negb (N.eqb c 93)) t = true
    /\ forallb (fun c => negb (N.eqb c 41)) h = true.
Proof.
  unfold regexLink. rewrite matcher_Seq.
  destruct s as [|c s]; [discriminate|]. rewrite matcher_CharClass.
  destruct (N.eqb 91 c) eqn:E0; [|discriminate]. apply N.eqb_eq in E0. subst c.
  rewrite matcher_Seq, matcher_Group.
  destruct s as [|c1 s]; [discriminate|]. rewrite matcher_Plus.
  destruct (negb (N.eqb c1 93)) eqn:E1; [|discriminate].
  intros H. apply repeat_greedy_sound in H. destruct H as (w & s' & -> & Hw & H).
  cbn [rest caps] in H.
  change (c1 :: w ++ s') with ((c1 :: w) ++ s') in H. rewrite firstn_cut in H.
  rewrite matcher_Seq in H. destruct s' as [|c2 s']; [discriminate|].
  rewrite matcher_CharClass in H.
  destruct (N.eqb 93 c2) eqn:E2; [|discriminate]. apply N.eqb_eq in E2. subst c2.
  rewrite matcher_Seq in H. destruct s' as [|c3 s']; [discriminate|].
  rewrite matcher_CharClass in H.
  destruct (N.eqb 40 c3) eqn:E3; [|discriminate]. apply N.eqb_eq in E3. subst c3.
  rewrite matcher_Seq, matcher_Group in H.
  destruct s' as [|c4 s']; [discriminate|]. rewrite matcher_Plus in H.
  destruct (negb (N.eqb c4 41)) eqn:E4; [|discriminate].
  apply repeat_greedy_sound in H. destruct H as (v & s'' & -> & Hv & H).
  cbn [rest caps] in H.
  change (c4 :: v ++ s'') with ((c4 :: v) ++ s'') in H. rewrite firstn_cut in H.
  destruct s'' as [|c5 s'']; [discriminate|]. rewrite matcher_CharClass in H.
  destruct (N.eqb 41 c5) eqn:E5; [|discriminate]. apply N.eqb_eq in E5. subst c5.
  injection H as <-. exists (c1 :: w), (c4 :: v). cbn [rest caps].
  repeat split; try discriminate.
  - cbn [forallb]. rewrite E1. exact Hw.
  - cbn [forallb]. rewrite E4. exact Hv.
Qed.

Lemma exec_global_link (input s skipped : str) (y : mstate) :
  exec_global input regexLink s = Some (skipped, y) ->
  exists t h,
    s = skipped ++ 91%N :: t ++ 93%N :: 40%N :: h ++ 41%N :: rest y
    /\ group 1 y = t /\ group 2 y = h
    /\ t <> [] /\ h <> []
    /\ forallb (fun c => negb (N.eqb c 93)) t = true
    /\ forallb (fun c => negb (N.eqb c 41)) h = true.
Proof.
  revert skipped. induction s as [|c s IH]; intros skipped; cbn [exec_global].
  - destruct (matcher input regexLink (MState [] []) (fun y => Some y)) eqn:M; [|discriminate].
    discriminate.
  - destruct (matcher input regexLink (MState (c :: s) []) (fun y => Some y)) as [z|] eqn:M.
    + intros [= <- <-]. destruct (regexLink_match _ _ M) as (t & h & E & Hc & Ht & Hh & Pt & Ph).
      exists t, h. unfold group. rewrite Hc. simpl. repeat split; auto.
    + destruct (exec_global input regexLink s) as [[sk z]|]; [|discriminate].
      intros [= <- <-]. destruct (IH sk eq_refl) as (t & h & E & G1 & G2 & Ht & Hh & Pt & Ph).
      exists t, h. simpl. rewrite <- E. repeat split; auto.
Qed.

Lemma exec_global_shorter (input s skipped : str) (y : mstate) :
  exec_global input regexLink s = Some (skipped, y) -> length (rest y) < length s.
Proof.
  intros H. destruct (exec_global_link _ _ H) as (t & h & E & _).
  rewrite E. repeat (rewrite length_app; cbn [length]). unfold str, code in *. lia.
Qed.

Lemma exec_global_nil (input : str) : exec_global input regexLink [] = None.
Proof. reflexivity. Qed.

Lemma render_loop_fuel (text : str) (f1 f2 : nat) (s : str) :
  length s <= f1 -> length s <= f2 -> render_loop f1 text s = render_loop f2 text s.
Proof.
  revert f2 s. induction f1 as [|f1 IH]; intros f2 s H1 H2.
  - destruct s; [|simpl in H1; lia]. destruct f2; [reflexivity|].
    cbn [render_loop]. now rewrite exec_global_nil.
  - destruct f2 as [|f2].
    + destruct s; [|simpl in H2; lia]. cbn [render_loop]. now rewrite exec_global_nil.
    + cbn [render_loop].
      destruct (exec_global text regexLink s) as [[sk y]|] eqn:E; [|reflexivity].
      pose proof (exec_global_shorter _ _ E). now rewrite (IH f2) by lia.
Qed.

Lemma push_text_source (s : str) : concat (map child_source (push_text s)) = s.
Proof. destruct s; [reflexivity|]. simpl. now rewrite app_nil_r. Qed.

Lemma render_loop_source (fuel : nat) (text s : str) :
  concat (map child_source (render_loop fuel text s)) = s.
Proof.
  revert s. induction fuel as [|fuel IH]; intros s; cbn [render_loop].
  - apply push_text_source.
  - destruct (exec_global text regexLink s) as [[sk y]|] eqn:E; [|apply push_text_source].
    destruct (exec_global_link _ _ E) as (t & h & Es & G1 & G2 & _).
    rewrite map_app, concat_app, push_text_source. cbn [map concat child_source].
    rewrite IH, G1, G2. rewrite Es. simpl. rewrite <- !app_assoc.
    simpl. now rewrite <- !app_assoc.
Qed.

(** X18. The children stand for the whole text, in order: the pieces of
    text as they are and each link as [[text](href)], put one after the other,
    give the text.  The loop ends within as many rounds as the text has
    characters. *)
Theorem renderKanbanCardText_source :
  forall text,
    concat (map child_source (renderKanbanCardText text)) = text
    /\ forall fuel, length text <= fuel ->
         render_loop fuel text text = renderKanbanCardText text.
Proof.
  intros text. split; [apply render_loop_source|].
  intros fuel H. now apply render_loop_fuel.
Qed.

Lemma renderKanbanCardText_source_witness :
  render_loop 50 (lit "see [a](b)") (lit "see [a](b)")
  = renderKanbanCardText (lit "see [a](b)").
Proof.
  apply (proj2 (renderKanbanCardText_source (lit "see [a](b)"))). simpl. lia.
Defined.

Lemma push_text_children (s : str) (c : child) :
  In c (push_text s) -> c = Text s /\ s <> [].
Proof. destruct s; simpl; [easy|]. intros [<- | []]. now split. Qed.

Lemma not_in_forallb (x : code) (s : str) :
  forallb (fun c => negb (N.eqb c x)) s = true -> ~ In x s.
Proof.
  intros H F. rewrite forallb_forall in H. specialize (H x F).
  now rewrite N.eqb_refl in H.
Qed.

(** X19. No piece of text among the children is empty; the text of a link
    is not empty and holds no [`]`], its address is not empty and holds no
    [`)`]. *)
Theorem renderKanbanCardText_children :
  forall text c,
    In c (renderKanbanCardText text) ->
    match c with
    | Text s => s <> []
    | Anchor href t => t <> [] /\ ~ In 93%N t /\ href <> [] /\ ~ In 41%N href
    end.
Proof.
  intros text c. unfold renderKanbanCardText. generalize (length text) at 1.
  intros fuel. generalize text at 2. induction fuel as [|fuel IH]; intros s; cbn [render_loop].
  - intros H. apply push_text_children in H. now destruct H as [-> H].
  - destruct (exec_global text regexLink s) as [[sk y]|] eqn:E.
    + intros H. apply in_app_or in H. destruct H as [H | [<- | H]].
      * apply push_text_children in H. now destruct H as [-> H].
      * destruct (exec_global_link _ _ E) as (t & h & _ & -> & -> & Ht & Hh & Pt & Ph).
        repeat split; auto; now apply not_in_forallb.
      * now apply (IH _ H).
    + intros H. apply push_text_children in H. now destruct H as [-> H].
Qed.

Lemma renderKanbanCardText_children_witness :
  lit "a" <> [] /\ ~ In 93%N (lit "a") /\ lit "b" <> [] /\ ~ In 41%N (lit "b").
Proof.
  apply (renderKanbanCardText_children (lit "see [a](b)") (Anchor (lit "b") (lit "a"))).
  vm_compute. right. left. reflexivity.
Defined.

Lemma exec_global_none (input s : str) :
  ~ In 91%N s -> exec_global input regexLink s = None.
Proof.
  induction s as [|c s IH]; intros H; [reflexivity|].
  cbn [exec_global]. unfold regexLink at 1. rewrite matcher_Seq, matcher_CharClass.
  destruct (N.eqb 91 c) eqn:E.
  - apply N.eqb_eq in E. subst. exfalso. apply H. now left.
  - rewrite IH; [reflexivity|]. intros F. apply H. now right.
Qed.

(** X20. A text without [`[`] is rendered as it is: as one piece of text, or
    as nothing when it is empty. *)
Theorem renderKanbanCardText_plain :
  forall text,
    ~ In 91%N text ->
    renderKanbanCardText text = match text with [] => [] | _ :: _ => [Text text] end.
Proof.
  intros text H. unfold renderKanbanCardText. destruct text as [|c text]; [reflexivity|].
  cbn [length render_loop]. now rewrite (@exec_global_none _ _ H).
Qed.

Lemma renderKanbanCardText_plain_witness :
  renderKanbanCardText (lit "Buy milk") = [Text (lit "Buy milk")].
Proof.
  apply (renderKanbanCardText_plain (lit "Buy milk")).
  vm_compute. intros H. repeat (destruct H as [H | H]; [discriminate|]). exact H.
Defined.

(** ** Counting stones *)

Section ReversiFacts.
Variable stone : Type.
Variable stone_eqb : stone -> stone -> bool.

Lemma count_row (v : stone) (r : list stone) (n : nat) :
  fold_left (fun count c => if stone_eqb c v then count + 1 else count) r n
  = n + length (filter (fun c => stone_eqb c v) r).
Proof.
  revert n. induction r as [|c r IH]; intros n; simpl; [lia|].
  rewrite IH. destruct (stone_eqb c v); simpl; lia.
Qed.

Lemma count_rows (v : stone) (cells : list (list stone)) (n : nat) :
  fold_left
    (fun count r =>
       fold_left (fun count c => if stone_eqb c v then count + 1 else count) r count)
    cells n
  = n + length (filter (fun c => stone_eqb c v) (concat cells)).
Proof.
  revert n. induction cells as [|r cells IH]; intros n; simpl; [lia|].
  rewrite IH, count_row, filter_app, length_app. lia.
Qed.

Lemma filter_two_le (v w : stone) (l : list stone) :
  (forall c, stone_eqb c v = true -> stone_eqb c w = false) ->
  length (filter (fun c => stone_eqb c v) l) + length (filter (fun c => stone_eqb c w) l)
  <= length l.
Proof.
  intros H. induction l as [|c l IH]; simpl; [lia|].
  destruct (stone_eqb c v) eqn:E.
  - rewrite (H c E). simpl. lia.
  - destruct (stone_eqb c w); simpl; lia.
Qed.
End ReversiFacts.

(** X21. [countStones] gives the number of cells, over all rows, that are
    equal to the stone value; for two values that no cell equals at once,
    such as black and white, the two counts together are at most the number
    of cells. *)
Theorem countStones_cells :
  forall (stone : Type) (stone_eqb : stone -> stone -> bool) cells,
    (forall v,
        countStones stone_eqb cells v
        = length (filter (fun c => stone_eqb c v) (concat cells)))
    /\ (forall v w,
          (forall c, stone_eqb c v = true -> stone_eqb c w = false) ->
          countStones stone_eqb cells v + countStones stone_eqb cells w
          <= length (concat cells)).
Proof.
  intros stone stone_eqb cells.
  assert (G : forall v, countStones stone_eqb cells v
                        = length (filter (fun c => stone_eqb c v) (concat cells))).
  { intros v. unfold countStones. now rewrite count_rows. }
  split; [exact G|]. intros v w H. rewrite !G. now apply filter_two_le.
Qed.

Lemma countStones_cells_witness :
  countStones Z.eqb [[1; 2; 0]; [1; 1; 0]]%Z 1%Z
  + countStones Z.eqb [[1; 2; 0]; [1; 1; 0]]%Z 2%Z <= 6.
Proof.
  apply (proj2 (countStones_cells Z.eqb [[1; 2; 0]; [1; 1; 0]]%Z) 1%Z 2%Z).
  intros c H. apply Z.eqb_eq in H. subst. reflexivity.
Defined.

(** ** Dropping and removing cards *)

(** X22. A card dropped on itself causes no edit; the move it leaves out
    would have handed over the printed board with every card in its place. *)
Theorem drop_on_itself :
  forall data fl fi src item,
    nth_error (lists (deserialize (Str data))) fl = Some src ->
    nth_error (KanbanModelList.items src) fi = Some item ->
    cardTarget_drop (Z.of_nat fl, Z.of_nat fi) (Z.of_nat fl, Z.of_nat fi) data = NoEdit
    /\ handleMoveItem (Z.of_nat fl, Z.of_nat fi) (Z.of_nat fl, Z.of_nat fi) data
       = OnEdit (serialize (deserialize (Str data))).
Proof.
  intros data fl fi src item Hsrc Hitem. split.
  - unfold cardTarget_drop. cbn [fst snd]. now rewrite !Z.eqb_refl.
  - unfold handleMoveItem. cbn [fst snd].
    destruct (Z.ltb_spec (Z.of_nat fi) 0); [lia|].
    unfold updateKanban. now rewrite (moveItem_to_itself _ _ _ Hsrc Hitem).
Qed.

Lemma drop_on_itself_witness :
  cardTarget_drop (0, 0)%Z (0, 0)%Z (lit "* L" ++ LF :: lit "  * a") = NoEdit
  /\ handleMoveItem (0, 0)%Z (0, 0)%Z (lit "* L" ++ LF :: lit "  * a")
     = OnEdit (lit "* L" ++ LF :: lit "  * a").
Proof.
  apply (@drop_on_itself (lit "* L" ++ LF :: lit "  * a") 0 0
           (KanbanModelList.make (lit "L") [KanbanModelItem.new (lit "a") 0])
           (KanbanModelItem.new (lit "a") 0)); vm_compute; reflexivity.
Defined.

(** X23. [handleRemoveItem] with the list and the item in place hands over
    the printed board without this item, and nothing else is lost; with no
    list at the index it throws and [onEdit] is not called.
    [handleRemoveList] with a list at the index hands over the printed board
    without this list. *)
Theorem handleRemove_in_range :
  (forall data fl fi src item,
      nth_error (lists (deserialize (Str data))) fl = Some src ->
      nth_error (KanbanModelList.items src) fi = Some item ->
      handleRemoveItem (Z.of_nat fl, Z.of_nat fi) data
      = OnEdit
          (serialize
             (make (replace_nth fl
                      (KanbanModelList.make (KanbanModelList.name src)
                         (remove_nth fi (KanbanModelList.items src)))
                      (lists (deserialize (Str data))))))
      /\ Permutation
           (item :: all_items
                      (make (replace_nth fl
                               (KanbanModelList.make (KanbanModelList.name src)
                                  (remove_nth fi (KanbanModelList.items src)))
                               (lists (deserialize (Str data))))))
           (all_items (deserialize (Str data))))
  /\ (forall data itemId,
        getListAt (fst itemId) (deserialize (Str data)) = None ->
        handleRemoveItem itemId data = Throws)
  /\ (forall data i l,
        nth_error (lists (deserialize (Str data))) i = Some l ->
        handleRemoveList (Z.of_nat i) data
        = OnEdit (serialize (make (remove_nth i (lists (deserialize (Str data))))))).
Proof.
  split; [|split].
  - intros data fl fi src item Hsrc Hitem. split.
    + unfold handleRemoveItem, updateKanban, getListAt. cbn [fst snd].
      rewrite array_get_nat, Hsrc, Nat2Z.id, (update_at_replace _ _ _ Hsrc).
      unfold KanbanModelList.removeItemAt.
      now rewrite splice_delete1_nat
        by (apply Nat.lt_le_incl, nth_error_Some; congruence).
    + unfold all_items, replace_nth. cbn [lists].
      destruct (flat_update_at
                  (fun _ => KanbanModelList.make (KanbanModelList.name src)
                              (remove_nth fi (KanbanModelList.items src))) _ _ Hsrc)
        as [-> ->].
      cbn [KanbanModelList.items]. symmetry. apply perm_in_context.
      unfold remove_nth. rewrite (nth_error_cut _ _ Hitem) at 1.
      symmetry. apply Permutation_middle.
  - intros data itemId H. unfold handleRemoveItem, updateKanban. now rewrite H.
  - intros data i l Hl. unfold handleRemoveList, updateKanban, removeListAt.
    now rewrite splice_delete1_nat
      by (apply Nat.lt_le_incl, nth_error_Some; congruence).
Qed.

Lemma handleRemove_in_range_witness :
  handleRemoveItem (0, 0)%Z (lit "* L" ++ LF :: lit "  * a" ++ LF :: lit "  * b")
  = OnEdit (lit "* L" ++ LF :: lit "  * b")
  /\ handleRemoveItem (4, 0)%Z (lit "* L") = Throws
  /\ handleRemoveList 0 (lit "* L" ++ LF :: lit "* M") = OnEdit (lit "* M").
Proof.
  destruct handleRemove_in_range as (H1 & H2 & H3). split; [|split].
  - apply (proj1 (H1 (lit "* L" ++ LF :: lit "  * a" ++ LF :: lit "  * b") 0 0
                    (KanbanModelList.make (lit "L")
                       [KanbanModelItem.new (lit "a") 0; KanbanModelItem.new (lit "b") 0])
                    (KanbanModelItem.new (lit "a") 0)
                    ltac:(vm_compute; reflexivity) eq_refl)).
  - apply H2. vm_compute. reflexivity.
  - apply (H3 (lit "* L" ++ LF :: lit "* M") 0 (KanbanModelList.new (lit "L"))).
    vm_compute. reflexivity.
Defined.
